(** * cherry: session agent and NATS discovery

    A shallow embedding of two pieces of the cherry game-server framework:

    - package [cherryAgent] (the per-connection agent: constructor, send
      policy, close, kick, reader loop, writer loop), and
    - package [cherryDiscovery] (the master/client discovery protocol over a
      message bus: the register and unregister handlers and shutdown).

    Go code is rendered as pure functions over explicit state.  Every
    observable side effect (a log line, a write on the connection, a value
    handed over on a channel, a publish on the bus) is recorded, in program
    order, in a trace of events.  Calls that can fail return a [result].
    What the environment decides (does a write succeed, is a receiver
    waiting on a channel, what time is it) is an explicit argument. *)

From Stdlib Require Import ZArith NArith List String Bool Lia QArith.
From Stdlib.Strings Require Import Byte.
Import ListNotations.

Open Scope string_scope.
Open Scope list_scope.
Open Scope Z_scope.

(** ** Go values *)

(** A Go [[]byte]. The nil slice and the empty slice are both [[]]. *)
Definition bytes : Type := list byte.

(** A Go [(T, error)] pair following the usual convention: on failure the
    value is the zero value of [T] and the error is non-nil. *)
Inductive result (A : Type) : Type :=
| Ok (a : A)
| Err (e : string).
Arguments Ok {A} a.
Arguments Err {A} e.

Definition is_ok {A : Type} (r : result A) : bool :=
  match r with Ok _ => true | Err _ => false end.

(** ** package time *)
Module time.

(** [time.Duration] is an int64 count of nanoseconds. *)
Definition Duration : Type := Z.

Definition Nanosecond : Duration := 1.
Definition Millisecond : Duration := 1000000.
Definition Second : Duration := 1000000000.

(** [Duration.Seconds]: whole seconds plus the fractional remainder.  Go
    computes [float64(d / Second) + float64(d % Second) / 1e9]; integer
    division truncates and the remainder takes the sign of [d].  The value is
    kept here as an exact rational.  Its comparison with 1, the only use made
    of it, comes out the same in float64: from one second on the whole part
    is at least 1 and the fraction is not negative; below it the whole part
    is at most 0 and the fraction at most 0.999999999, which no rounding
    brings up to 1. *)
Definition Seconds (d : Duration) : Q :=
  (inject_Z (Z.quot d Second) + (Z.rem d Second # 1000000000))%Q.

(** An instant, as nanoseconds since the Unix epoch. *)
Definition Time : Type := Z.

(** [Time.Add]. *)
Definition Add (t : Time) (d : Duration) : Time := t + d.

(** [Time.Unix]: whole seconds since the epoch (rounded down). *)
Definition Unix (t : Time) : Z := t / Second.

End time.

(** ** package cherryPacket *)
Module cherryPacket.

(** Packet types with their wire codes. *)
Inductive Type_ : Type :=
| Handshake
| HandshakeAck
| Heartbeat
| Data
| Kick.

Definition code (t : Type_) : N :=
  match t with
  | Handshake => 1
  | HandshakeAck => 2
  | Heartbeat => 3
  | Data => 4
  | Kick => 5
  end%N.

Definition Type_eqb (a b : Type_) : bool := N.eqb (code a) (code b).

(** A decoded packet. *)
Record Packet : Type := mkPacket {
  Type_of : Type_;
  Payload_of : bytes
}.

Definition byte_of_N (n : N) : byte :=
  match Byte.of_N (n mod 256) with
  | Some b => b
  | None => x00
  end.

(** Three bytes, most significant first. *)
Definition len3 (n : N) : bytes :=
  [byte_of_N (n / 65536); byte_of_N (n / 256); byte_of_N n].

(** Modelled from the spec: the packet encoder (package net/packet is not
    among the sources).  A frame is [type:1 || length:3 big-endian ||
    payload]; the length is bounded by a configured maximum, itself at most
    the 24-bit maximum, and a longer payload is an error. *)
Definition Encode (maxSize : N) (t : Type_) (data : bytes) : result bytes :=
  let n := N.of_nat (List.length data) in
  if ((N.min maxSize 16777215) <? n)%N
  then Err "packet size exceed"
  else Ok (byte_of_N (code t) :: len3 n ++ data).

End cherryPacket.

(** ** package cherryMessage *)
Module cherryMessage.

Inductive Type_ : Type :=
| Request
| Notify
| Response
| Push.

Record Message : Type := mkMessage {
  Type_of : Type_;
  ID : N;
  Route : string;
  Data : bytes;
  Error : bool
}.

End cherryMessage.

(** ** package cherrySession *)
Module cherrySession.

Inductive State : Type :=
| Init
| Working
| Closed.

Definition State_eqb (a b : State) : bool :=
  match a, b with
  | Init, Init | Working, Working | Closed, Closed => true
  | _, _ => false
  end.

(** Modelled from the spec: the session (package net/session is not among
    the sources): an id and a state in [{Init, Working, Closed}]. *)
Record Session : Type := mkSession {
  SID : string;
  State_of : State
}.

Definition SetState (st : State) (s : Session) : Session :=
  {| SID := SID s; State_of := st |}.

End cherrySession.

(** ** package cherryFacade: what the agent asks of the application *)

(** The agent embeds [cherryFacade.IApplication] and uses its serializer and
    packet codec.  [Payload] stands for the [interface{}] values handed to
    [Marshal].  [MessageEncode] is [cherryMessage.Encode]. *)
Class IApplication : Type := {
  Payload : Type;
  Marshal : Payload -> result bytes;
  MaxPacketSize : N;
  PacketDecode : bytes -> result (list cherryPacket.Packet);
  MessageEncode : cherryMessage.Message -> result bytes
}.

Definition PacketEncode `{IApplication} (t : cherryPacket.Type_) (data : bytes)
  : result bytes :=
  cherryPacket.Encode MaxPacketSize t data.

(** ** package cherryAgent *)
Module cherryAgent.

(** Capacity of the two buffered queues [chSend] and [chWrite]. *)
Definition WriteBacklog : nat := 64.

(** Everything an agent does that is visible outside its own fields.  Log
    lines keep the format string of the call; logging itself never fails. *)
Inductive Event : Type :=
| SessionWarnf (format : string)     (* a.Session.Warnf *)
| SessionDebugf (format : string)    (* a.Session.Debugf, a.Session.Debug *)
| LoggerWarn (err : string)          (* cherryLogger.Warn(err) *)
| LoggerWarnf (format : string)      (* cherryLogger.Warnf *)
| OnCloseProcess                     (* a.Session.OnCloseProcess(): the on-close hooks run *)
| ChDieSent                          (* a.chDie <- true handed over to the receiver *)
| ChDieReceived                      (* <-a.chDie *)
| ConnWrite (b : bytes)              (* a.conn.Write(b) *)
| ConnClose                          (* a.conn.Close() *)
| CommandDo (p : cherryPacket.Packet) (* cmd.Do(a.Session, packet) *)
| TickerStop                         (* ticker.Stop() *)
| CloseChSend                        (* close(a.chSend) *)
| CloseChWrite.                      (* close(a.chWrite) *)

(** Where a goroutine can wait without bound. *)
Inductive Blocker : Type :=
| OnChDie      (* sending on the unbuffered chDie, nobody receiving *)
| OnChWrite    (* sending on a full chWrite *)
| OnConnRead   (* conn.GetNextMessage with nothing to read yet *)
| OnSelect.    (* the writer's select with no source ready *)

(** What the connection, the other goroutine and the profile decide. *)
Record World : Type := mkWorld {
  (* the writer goroutine is in its select loop and takes a value sent on chDie *)
  writerSelecting : bool;
  (* a.conn.Write: the number of bytes written, or an error *)
  connWrite : bytes -> result nat;
  (* a.conn.Close: its error, if any *)
  connClose : option string;
  (* cherryProfile.Debug() *)
  profileDebug : bool
}.

Section Agent.
Context `{App : IApplication}.

(** [cherryCommand.ICommand]: [Do(session, packet)] may update the session. *)
Definition ICommand : Type :=
  cherrySession.Session -> cherryPacket.Packet -> cherrySession.Session.

Record Options : Type := mkOptions {
  Heartbeat : time.Duration;
  Commands : cherryPacket.Type_ -> option ICommand
}.

Record pendingMessage : Type := mkPending {
  typ : cherryMessage.Type_;
  route : string;
  mid : N;
  payload : Payload;
  err : bool
}.

(** The agent's own fields.  [Session] is a pointer and may be nil.  The two
    buffered channels are FIFO lists, oldest first.  The connection and the
    unbuffered [chDie] have no content of their own: what happens on them is
    in the [World] and in the trace. *)
Record Agent : Type := mkAgent {
  Options_of : Options;
  Session : option cherrySession.Session;
  chSend : list pendingMessage;
  chWrite : list bytes;
  lastAt : Z
}.

Definition set_Heartbeat (d : time.Duration) (a : Agent) : Agent :=
  {| Options_of := {| Heartbeat := d; Commands := Commands (Options_of a) |};
     Session := Session a; chSend := chSend a; chWrite := chWrite a;
     lastAt := lastAt a |}.

Definition set_Session (s : cherrySession.Session) (a : Agent) : Agent :=
  {| Options_of := Options_of a; Session := Some s; chSend := chSend a;
     chWrite := chWrite a; lastAt := lastAt a |}.

Definition set_chSend (q : list pendingMessage) (a : Agent) : Agent :=
  {| Options_of := Options_of a; Session := Session a; chSend := q;
     chWrite := chWrite a; lastAt := lastAt a |}.

Definition set_chWrite (q : list bytes) (a : Agent) : Agent :=
  {| Options_of := Options_of a; Session := Session a; chSend := chSend a;
     chWrite := q; lastAt := lastAt a |}.

Definition set_lastAt (t : Z) (a : Agent) : Agent :=
  {| Options_of := Options_of a; Session := Session a; chSend := chSend a;
     chWrite := chWrite a; lastAt := t |}.

(** How a call into the agent ends. *)
Inductive Outcome : Type :=
| Returned (a : Agent) (tr : list Event)
| Blocked (on : Blocker) (a : Agent) (tr : list Event)
| Panicked (tr : list Event).

(** The events of [tr] happened before those of the outcome. *)
Definition after (tr : list Event) (o : Outcome) : Outcome :=
  match o with
  | Returned a t => Returned a (tr ++ t)
  | Blocked on a t => Blocked on a (tr ++ t)
  | Panicked t => Panicked (tr ++ t)
  end.

Definition trace (o : Outcome) : list Event :=
  match o with
  | Returned _ t | Blocked _ _ t | Panicked t => t
  end.

(** [NewAgent]: both queues are made with capacity [WriteBacklog]; the
    session is not set yet, and [lastAt] is zero.  A heartbeat below one
    second becomes sixty seconds.  (The agent keeps the pointer to the
    options it was given, so in Go the default is written into the caller's
    options as well; the model keeps the agent's view of them.) *)
Definition NewAgent (opts : Options) : Agent :=
  let agent := {| Options_of := opts; Session := None; chSend := [];
                  chWrite := []; lastAt := 0 |} in
  (* agent.Heartbeat.Seconds() < 1, that is, not 1 <= seconds *)
  if negb (Qle_bool 1 (time.Seconds (Heartbeat (Options_of agent))))
  then set_Heartbeat (60 * time.Second) agent
  else agent.

(** [SetLastAt], at clock reading [now]. *)
Definition SetLastAt (now : time.Time) (a : Agent) : Agent :=
  set_lastAt (time.Unix now) a.

(** [Send]. *)
Definition Send (typ : cherryMessage.Type_) (route : string) (mid : N)
    (v : Payload) (isError : bool) (a : Agent) : Outcome :=
  match Session a with
  | None => Panicked []
  | Some s =>
    if cherrySession.State_eqb (cherrySession.State_of s) cherrySession.Closed
    then Returned a [SessionWarnf "[send] session status == Closed"]
    else if (WriteBacklog <=? List.length (chSend a))%nat
    then Returned a [SessionWarnf "[send] session send buffer exceed"]
    else
      let pending := {| typ := typ; mid := mid; route := route;
                        payload := v; err := isError |} in
      Returned (set_chSend (chSend a ++ [pending]) a) []
  end.

(** [Push]. *)
Definition Push (route : string) (val : Payload) (a : Agent) : Outcome :=
  Send cherryMessage.Push route 0%N val false a.

(** [Response]; [isError] is the variadic tail. *)
Definition Response (mid : N) (v : Payload) (isError : list bool) (a : Agent)
  : Outcome :=
  let err := match isError with e :: _ => e | [] => false end in
  Send cherryMessage.Response "" mid v err a.

(** [SendRaw]: a send on the buffered [chWrite].  The agent's fields hold
    what the queue contains, not whether the channel is still open:
    [closed] tells whether the deferred function of [write] has run
    [close(a.chWrite)].  A send on a closed channel panics. *)
Definition SendRaw (closed : bool) (b : bytes) (a : Agent) : Outcome :=
  if closed
  then Panicked []
  else if (List.length (chWrite a) <? WriteBacklog)%nat
  then Returned (set_chWrite (chWrite a ++ [b]) a) []
  else Blocked OnChWrite a [].

(** [Close].  [receiver] tells whether some goroutine takes the value sent on
    the unbuffered [chDie]; without one the send never completes and the
    statements after it are not reached.  The agent's lock makes calls take
    their turn; a call that waits on the send keeps the lock. *)
Definition Close (receiver : bool) (w : World) (a : Agent) : Outcome :=
  match Session a with
  | None => Panicked []
  | Some s =>
    if cherrySession.State_eqb (cherrySession.State_of s) cherrySession.Closed
    then Returned a []
    else
      let a1 := set_Session (cherrySession.SetState cherrySession.Closed s) a in
      if receiver
      then Returned a1
             ([OnCloseProcess; ChDieSent; ConnClose] ++
              match connClose w with
              | Some _ => [SessionDebugf "session close error[%s]"]
              | None => []
              end)
      else Blocked OnChDie a1 [OnCloseProcess]
  end.

(** [Kick].  The agent's fields are not touched: the result is the trace. *)
Definition Kick (w : World) (reason : Payload) : list Event :=
  let '(bytes, tr) :=
    match Marshal reason with
    | Ok b => (b, [])
    | Err _ => ([], [SessionWarnf "[Kick] marshal fail. [reason = %v] [error = %s]."])
    end in
  match PacketEncode cherryPacket.Kick bytes with
  | Err _ =>
    tr ++ [SessionWarnf "[kick] packet encode error.[reason = %v] [error = %s]."]
  | Ok pkg =>
    tr ++ [ConnWrite pkg] ++
    match connWrite w pkg with
    | Err e => [LoggerWarn e]
    | Ok _ => []
    end ++
    (if profileDebug w then [SessionDebugf "[Kick] [reason = %v]"] else [])
  end.

(** *** The reader *)

(** [processPacket], at clock reading [now]. *)
Definition processPacket (now : time.Time) (packet : cherryPacket.Packet)
    (a : Agent) : Agent * list Event :=
  match Commands (Options_of a) (cherryPacket.Type_of packet) with
  | None => (a, [SessionDebugf "packet[%s] type not found."])
  | Some cmd =>
    match Session a with
    | None => (a, [LoggerWarnf "session is nil."])
    | Some s =>
      (SetLastAt now (set_Session (cmd s packet) a), [CommandDo packet])
    end
  end.

(** The [range packets] loop of [read]; [clock i] is the reading of
    [time.Now] while the packet at index [i] is processed. *)
Fixpoint processPackets (clock : nat -> time.Time) (i : nat)
    (packets : list cherryPacket.Packet) (a : Agent) : Agent * list Event :=
  match packets with
  | [] => (a, [])
  | packet :: rest =>
    let '(a1, tr1) := processPacket (clock i) packet a in
    let '(a2, tr2) := processPackets clock (S i) rest a1 in
    (a2, tr1 ++ tr2)
  end.

(** One answer of [conn.GetNextMessage]. *)
Inductive ReadResult : Type :=
| ReadError (e : string)
| ReadMessage (msg : bytes) (clock : nat -> time.Time).

(** [read], against the successive answers of the connection.  When the
    answers run out the reader is waiting for the next one.  The deferred
    [Close] runs when the loop returns. *)
Fixpoint read (w : World) (conn : list ReadResult) (a : Agent) : Outcome :=
  match conn with
  | [] => Blocked OnConnRead a []
  | ReadError _ :: _ => Close (writerSelecting w) w a
  | ReadMessage msg clock :: rest =>
    match PacketDecode msg with
    | Err _ =>
      after [SessionWarnf "packet decoder error. error[%s], msg[%s]"]
            (read w rest a)
    | Ok packets =>
      let '(a1, tr1) := processPackets clock 0 packets a in
      after tr1 (read w rest a1)
    end
  end.

(** *** The writer *)

(** The four cases of the writer's [select]. *)
Inductive Source : Type :=
| SrcDie      (* case <-a.chDie *)
| SrcTick     (* case <-ticker.C *)
| SrcWrite    (* case bytes := <-a.chWrite *)
| SrcSend.    (* case data := <-a.chSend *)

(** What the outside offers the [select] at one iteration: a [Close] waiting
    to hand over its value on [chDie], and a tick waiting in [ticker.C] (with
    the reading of [time.Now] the tick case will make). *)
Record Offer : Type := mkOffer {
  dieOffered : bool;
  tick : option time.Time
}.

(** A case can proceed when its channel has a value to receive. *)
Definition ready (o : Offer) (a : Agent) (src : Source) : bool :=
  match src with
  | SrcDie => dieOffered o
  | SrcTick => match tick o with Some _ => true | None => false end
  | SrcWrite => match chWrite a with [] => false | _ :: _ => true end
  | SrcSend => match chSend a with [] => false | _ :: _ => true end
  end.

(** How one iteration of the loop ends. *)
Inductive Step : Type :=
| Continue (a : Agent) (tr : list Event)   (* next iteration *)
| Exit (a : Agent) (tr : list Event)       (* return: the loop is left *)
| Stuck (a : Agent) (tr : list Event).     (* a.chWrite <- p on a full chWrite *)

(** case <-ticker.C *)
Definition tickCase (now : time.Time) (a : Agent) : Step :=
  let deadline :=
    time.Unix (time.Add now (- Heartbeat (Options_of a))) in
  if lastAt a <? deadline
  then Exit a [SessionDebugf "check heartbeat timeout."]
  else Continue a [].

(** case bytes := <-a.chWrite *)
Definition writeCase (w : World) (b : bytes) (rest : list bytes) (a : Agent)
  : Step :=
  let a1 := set_chWrite rest a in
  match connWrite w b with
  | Err e => Exit a1 [ConnWrite b; LoggerWarn e]
  | Ok _ => Continue a1 [ConnWrite b]
  end.

(** case data := <-a.chSend *)
Definition sendCase (data : pendingMessage) (rest : list pendingMessage)
    (a : Agent) : Step :=
  let a1 := set_chSend rest a in
  match Marshal (payload data) with
  | Err _ => Exit a1 [SessionDebugf "message serializer error. data[%s]"]
  | Ok payload =>
    let m := {| cherryMessage.Type_of := typ data;
                cherryMessage.ID := mid data;
                cherryMessage.Route := route data;
                cherryMessage.Data := payload;
                cherryMessage.Error := err data |} in
    match MessageEncode m with
    | Err e => Continue a1 [LoggerWarn e]
    | Ok em =>
      match PacketEncode cherryPacket.Data em with
      | Err e => Continue a1 [LoggerWarn e]
      | Ok p =>
        if (List.length (chWrite a1) <? WriteBacklog)%nat
        then Continue (set_chWrite (chWrite a1 ++ [p]) a1) []
        else Stuck a1 []
      end
    end
  end.

(** What the writer finds in the shared session once it has received from
    [chDie]: the [Close] that sent the value set the state to [Closed] before
    sending. *)
Definition observeClosed (a : Agent) : Agent :=
  match Session a with
  | Some s => set_Session (cherrySession.SetState cherrySession.Closed s) a
  | None => a
  end.

(** One iteration of the [for { select { ... } }] loop in which the [select]
    takes the case [src].  Go's [select] takes any one of the cases that can
    proceed; the order of the cases in the source plays no part.  The result
    is [None] when [src] cannot proceed. *)
Definition selectCase (w : World) (o : Offer) (src : Source) (a : Agent)
  : option Step :=
  match src with
  | SrcDie =>
    if dieOffered o then Some (Exit (observeClosed a) [ChDieReceived]) else None
  | SrcTick =>
    match tick o with
    | Some now => Some (tickCase now a)
    | None => None
    end
  | SrcWrite =>
    match chWrite a with
    | b :: rest => Some (writeCase w b rest a)
    | [] => None
    end
  | SrcSend =>
    match chSend a with
    | data :: rest => Some (sendCase data rest a)
    | [] => None
    end
  end.

(** The deferred function of [write].  It runs in the writer goroutine, after
    the loop: nobody is receiving on [chDie] any more. *)
Definition writeDeferred (w : World) (a : Agent) : Outcome :=
  match Session a with
  | None => Panicked []
  | Some _ =>
    after [SessionDebugf "close session. [sid = %s]"; TickerStop]
      match Close false w a with
      | Returned a1 tr => Returned a1 (tr ++ [CloseChSend; CloseChWrite])
      | o => o
      end
  end.

(** [write], against a schedule: what is offered at each iteration and which
    case the [select] takes.  An entry whose case cannot proceed is passed
    over.  When the schedule runs out the writer is waiting in [select].
    Between two iterations the queues and the stamp are as the writer's own
    steps left them: the run is that of the writer with the other goroutines
    at rest, apart from what they offer. *)
Fixpoint write (w : World) (schedule : list (Offer * Source)) (a : Agent)
  : Outcome :=
  match schedule with
  | [] => Blocked OnSelect a []
  | (o, src) :: rest =>
    match selectCase w o src a with
    | None => write w rest a
    | Some (Continue a1 tr) => after tr (write w rest a1)
    | Some (Exit a1 tr) => after tr (writeDeferred w a1)
    | Some (Stuck a1 tr) => Blocked OnChWrite a1 tr
    end
  end.

(** *** Observations used in the statements *)

(** The loop is left at this iteration. *)
Definition exits (st : Step) : bool :=
  match st with
  | Exit _ _ => true
  | Continue _ _ | Stuck _ _ => false
  end.

Definition is_message (r : ReadResult) : bool :=
  match r with
  | ReadMessage _ _ => true
  | ReadError _ => false
  end.

(** The events by which a session is torn down. *)
Definition is_teardown (e : Event) : bool :=
  match e with
  | OnCloseProcess | ChDieSent | ConnClose => true
  | _ => false
  end.

(** The order in which the specification lists the four sources of the
    writer loop: death signal, heartbeat tick, raw-write queue, send
    queue. *)
Definition priority (src : Source) : nat :=
  match src with
  | SrcDie => 0
  | SrcTick => 1
  | SrcWrite => 2
  | SrcSend => 3
  end.

(** The specification's reading of the [select]: the case taken is the
    earliest, in that order, of those that can proceed. *)
Definition priority_respected (w : World) (o : Offer) (a : Agent) : Prop :=
  forall src st,
    selectCase w o src a = Some st ->
    forall src', ready o a src' = true -> (priority src <= priority src')%nat.

(** The specification's test at a tick, [now - lastHeartbeatUnix >
    heartbeat], with [now] read in whole Unix seconds like the stamp. *)
Definition elapsed_exceeds_heartbeat (now : time.Time) (a : Agent) : Prop :=
  (time.Unix now - lastAt a) * time.Second > Heartbeat (Options_of a).

(** The same test with [now] read to the nanosecond. *)
Definition elapsed_ns_exceeds_heartbeat (now : time.Time) (a : Agent) : Prop :=
  now - lastAt a * time.Second > Heartbeat (Options_of a).

(** *** Runs of several calls, and what is left to write *)

(** The calls [Send(c.typ, c.route, c.mid, c.payload, c.err)] made one after
    the other, each on the agent the one before left. *)
Fixpoint sendMany (calls : list pendingMessage) (a : Agent) : Agent :=
  match calls with
  | [] => a
  | c :: rest =>
    match Send (typ c) (route c) (mid c) (payload c) (err c) a with
    | Returned a1 _ => sendMany rest a1
    | Blocked _ _ _ | Panicked _ => a
    end
  end.

(** The frame the send case of the writer puts on the raw-write queue for a
    pending message: none when marshalling or one of the two encodings
    fails. *)
Definition frameOf (data : pendingMessage) : list bytes :=
  match Marshal (payload data) with
  | Err _ => []
  | Ok payload =>
    match MessageEncode {| cherryMessage.Type_of := typ data;
                           cherryMessage.ID := mid data;
                           cherryMessage.Route := route data;
                           cherryMessage.Data := payload;
                           cherryMessage.Error := err data |} with
    | Err _ => []
    | Ok em =>
      match PacketEncode cherryPacket.Data em with
      | Err _ => []
      | Ok p => [p]
      end
    end
  end.

(** What the two queues hold for the connection, in the order of the
    queues: the raw frames, then the frames of the pending messages. *)
Definition outstanding (a : Agent) : list bytes :=
  chWrite a ++ flat_map frameOf (chSend a).

(** The byte slices handed to [conn.Write], in order. *)
Fixpoint connWrites (tr : list Event) : list bytes :=
  match tr with
  | [] => []
  | ConnWrite b :: rest => b :: connWrites rest
  | _ :: rest => connWrites rest
  end.

(** The two queues and the options of [a1] are those of [a]. *)
Definition same_queues (a a1 : Agent) : Prop :=
  chSend a1 = chSend a /\ chWrite a1 = chWrite a /\ Options_of a1 = Options_of a.

Definition command_known (a : Agent) (p : cherryPacket.Packet) : bool :=
  match Commands (Options_of a) (cherryPacket.Type_of p) with
  | Some _ => true
  | None => false
  end.

End Agent.
End cherryAgent.

(** ** package cherryProto *)
Module cherryProto.

(** [cproto.Member]; [Settings] is a string-to-string map, kept as its
    entries. *)
Record Member : Type := mkMember {
  NodeId : string;
  NodeType : string;
  Address : string;
  Settings : list (string * string)
}.

End cherryProto.

(** ** package cherryDiscovery *)
Module cherryDiscovery.

(** [cfacade.IMember] is an interface; [*cproto.Member] implements it, and
    so may other types. *)
Inductive IMember : Type :=
| ProtoMember (m : cherryProto.Member)
| OtherMember (nodeId nodeType address : string).

Definition GetNodeId (m : IMember) : string :=
  match m with
  | ProtoMember p => cherryProto.NodeId p
  | OtherMember nodeId _ _ => nodeId
  end.

(** The type assertion of [member] to a pointer to [cproto.Member]
    succeeds. *)
Definition is_proto (m : IMember) : bool :=
  match m with
  | ProtoMember _ => true
  | OtherMember _ _ _ => false
  end.

(** [m.app.Serializer()], at the types the handlers and [Stop] use it
    with: a member is marshalled and unmarshalled, a member list is
    marshalled. *)
Class ISerializer : Type := {
  MarshalMember : cherryProto.Member -> result bytes;
  UnmarshalMember : bytes -> result cherryProto.Member;
  MarshalMemberList : list cherryProto.Member -> result bytes
}.

(** What the bus answers: the error, if any, of [msg.Respond(data)] and of
    [natsConn.Publish(subject, data)]. *)
Record Bus : Type := mkBus {
  respond : bytes -> option string;
  publish : string -> bytes -> option string
}.

(** What discovery does that is visible outside.  [Responded] and
    [Published] stand for calls that returned no error: the data went out. *)
Inductive Event : Type :=
| Warnf (format : string)
| Debugf (format : string)
| RegistryAdd (m : IMember)                  (* m.AddMember(member) *)
| RegistryRemove (nodeId : string)           (* m.RemoveMember(nodeId) *)
| Subscribed (subject : string)              (* m.natsConn.Subscribe *)
| Responded (data : bytes)                   (* msg.Respond *)
| Published (subject : string) (data : bytes) (* m.natsConn.Publish *)
| ConnClosed.                                (* m.natsConn.Close() *)

(** *** The member registry *)

(** Modelled from the spec: the member registry (the embedded
    [DiscoveryDefault] is not among the sources).  Members are kept in
    insertion order; [get] finds a member by node id. *)
Definition GetMember (nodeId : string) (l : list IMember) : option IMember :=
  find (fun m => String.eqb (GetNodeId m) nodeId) l.

(** Modelled from the spec: [add] of the member registry.  Adding a node id
    that is already present leaves the registry as it is. *)
Definition AddMember (member : IMember) (l : list IMember) : list IMember :=
  match GetMember (GetNodeId member) l with
  | Some _ => l
  | None => l ++ [member]
  end.

(** Modelled from the spec: [remove] of the member registry.  Removing an
    unknown node id is a no-op. *)
Definition RemoveMember (nodeId : string) (l : list IMember) : list IMember :=
  filter (fun m => negb (String.eqb (GetNodeId m) nodeId)) l.

(** *** DiscoveryNATS *)

(** [appNodeId] is [m.app.NodeId()]. *)
Record DiscoveryNATS : Type := mkDiscovery {
  memberList : list IMember;
  appNodeId : string;
  masterMember : IMember;
  registerSubject : string;
  unregisterSubject : string;
  addSubject : string
}.

Definition set_memberList (l : list IMember) (m : DiscoveryNATS)
  : DiscoveryNATS :=
  {| memberList := l; appNodeId := appNodeId m;
     masterMember := masterMember m;
     registerSubject := registerSubject m;
     unregisterSubject := unregisterSubject m;
     addSubject := addSubject m |}.

Definition isMaster (m : DiscoveryNATS) : bool :=
  String.eqb (appNodeId m) (GetNodeId (masterMember m)).

Definition isClient (m : DiscoveryNATS) : bool :=
  negb (String.eqb (appNodeId m) (GetNodeId (masterMember m))).

(** The three [fmt.Sprintf] of [init]. *)
Definition initSubjects (m : DiscoveryNATS) : DiscoveryNATS :=
  let masterNodeId := GetNodeId (masterMember m) in
  {| memberList := memberList m; appNodeId := appNodeId m;
     masterMember := masterMember m;
     registerSubject := "cherry.discovery." ++ masterNodeId ++ ".register";
     unregisterSubject := "cherry.discovery." ++ masterNodeId ++ ".unregister";
     addSubject := "cherry.discovery." ++ masterNodeId ++ ".addMember" |}%string.

Section Discovery.
Context `{Ser : ISerializer}.

(** The callback [init] subscribes on the unregister subject. *)
Definition unregisterHandler (m : DiscoveryNATS) (data : bytes)
  : DiscoveryNATS * list Event :=
  match UnmarshalMember data with
  | Err _ => (m, [Warnf "err = %s"])
  | Ok unregisterMember =>
    if String.eqb (cherryProto.NodeId unregisterMember) (appNodeId m)
    then (m, [])
    else
      (set_memberList
         (RemoveMember (cherryProto.NodeId unregisterMember) (memberList m)) m,
       [RegistryRemove (cherryProto.NodeId unregisterMember)])
  end.

(** The [range m.memberList] loop of the register callback: the reply
    list. *)
Fixpoint rspMemberList (newNodeId appNodeId : string) (l : list IMember)
  : list cherryProto.Member :=
  match l with
  | [] => []
  | member :: rest =>
    if String.eqb (GetNodeId member) newNodeId
    then rspMemberList newNodeId appNodeId rest
    else if String.eqb (GetNodeId member) appNodeId
    then rspMemberList newNodeId appNodeId rest
    else
      match member with
      | ProtoMember protoMember =>
        protoMember :: rspMemberList newNodeId appNodeId rest
      | OtherMember _ _ _ => rspMemberList newNodeId appNodeId rest
      end
  end.

(** The callback [serverInit] subscribes on the register subject. *)
Definition registerHandler (bus : Bus) (m : DiscoveryNATS) (data : bytes)
  : DiscoveryNATS * list Event :=
  match UnmarshalMember data with
  | Err _ =>
    (m, [Warnf "IMember Unmarshal[name = %s] error. dataLen = %+v, err = %s"])
  | Ok newMember =>
    let m1 :=
      set_memberList (AddMember (ProtoMember newMember) (memberList m)) m in
    let added := [RegistryAdd (ProtoMember newMember)] in
    let rsp :=
      rspMemberList (cherryProto.NodeId newMember) (appNodeId m1)
                    (memberList m1) in
    match MarshalMemberList rsp with
    | Err _ => (m1, added ++ [Warnf "marshal fail. err = %s"])
    | Ok rspData =>
      match respond bus rspData with
      | Some _ => (m1, added ++ [Warnf "respond fail. err = %s"])
      | None =>
        match publish bus (addSubject m1) data with
        | Some _ =>
          (m1, added ++ [Responded rspData; Warnf "publish fail. err = %s"])
        | None =>
          (m1, added ++ [Responded rspData; Published (addSubject m1) data])
        end
      end
    end
  end.

(** [serverInit]: on the master, add the master itself and subscribe the
    register callback. *)
Definition serverInit (m : DiscoveryNATS) : DiscoveryNATS * list Event :=
  if negb (isMaster m)
  then (m, [])
  else
    (set_memberList (AddMember (masterMember m) (memberList m)) m,
     [RegistryAdd (masterMember m); Subscribed (registerSubject m)]).

(** [Stop]. *)
Definition Stop (bus : Bus) (m : DiscoveryNATS) : list Event :=
  if isClient m
  then
    let thisMember :=
      {| cherryProto.NodeId := appNodeId m; cherryProto.NodeType := "";
         cherryProto.Address := ""; cherryProto.Settings := [] |} in
    match MarshalMember thisMember with
    | Err _ => [Warnf "marshal fail. err = %s"]
    | Ok bytesData =>
      match publish bus (unregisterSubject m) bytesData with
      | Some _ => [Warnf "publish fail. err = %s"]
      | None =>
        [Published (unregisterSubject m) bytesData;
         Debugf "[nodeId = %s] unregister node to [master = %s]";
         ConnClosed]
      end
    end
  else [ConnClosed].

End Discovery.
End cherryDiscovery.

(** ** Concrete applications, agents and clusters

    Small closed instances on which the definitions above are run. *)
Module Examples.
Import cherryAgent.

Definition type_of_byte (b : byte) : option cherryPacket.Type_ :=
  match Byte.to_N b with
  | 1%N => Some cherryPacket.Handshake
  | 2%N => Some cherryPacket.HandshakeAck
  | 3%N => Some cherryPacket.Heartbeat
  | 4%N => Some cherryPacket.Data
  | 5%N => Some cherryPacket.Kick
  | _ => None
  end.

(** An application whose serializer takes strings and rejects [None] (a
    value it has no encoding for), and whose decoder reads one packet per
    frame. *)
Definition sampleApp : IApplication :=
  {| Payload := option string;
     Marshal := fun v =>
       match v with
       | Some s => Ok (list_byte_of_string s)
       | None => Err "unsupported value"
       end;
     MaxPacketSize := 65536%N;
     PacketDecode := fun msg =>
       match msg with
       | t :: _ :: _ :: _ :: body =>
         match type_of_byte t with
         | Some ty => Ok [cherryPacket.mkPacket ty body]
         | None => Err "packet type invalid"
         end
       | _ => Err "packet invalid"
       end;
     MessageEncode := fun m => Ok (cherryMessage.Data m) |}.

Definition quietWorld : World :=
  {| writerSelecting := true;
     connWrite := fun b => Ok (List.length b);
     connClose := None;
     profileDebug := false |}.

(** A heartbeat command: it leaves the session as it is. *)
Definition heartbeatCommand : ICommand := fun s _ => s.

Definition sampleCommands (t : cherryPacket.Type_)
  : option ICommand :=
  match t with
  | cherryPacket.Heartbeat => Some heartbeatCommand
  | _ => None
  end.

Definition sampleOptions (heartbeat : time.Duration) : Options :=
  {| Heartbeat := heartbeat; Commands := sampleCommands |}.

Definition sampleSession (st : cherrySession.State) : cherrySession.Session :=
  {| cherrySession.SID := "s-1"; cherrySession.State_of := st |}.

(** An agent as [NewAgent] makes it, with its session attached. *)
Definition sampleAgent (heartbeat : time.Duration) (st : cherrySession.State)
  : Agent (App := sampleApp) :=
  set_Session (sampleSession st) (NewAgent (sampleOptions heartbeat)).

Definition helloMessage : pendingMessage (App := sampleApp) :=
  @mkPending sampleApp cherryMessage.Push "chat.hello" 0%N (Some "hello") false.

Definition workingAgent : Agent := sampleAgent (60 * time.Second) cherrySession.Working.

Definition closedAgent : Agent :=
  set_chSend [helloMessage] (sampleAgent (60 * time.Second) cherrySession.Closed).

(** A working agent whose send queue holds [WriteBacklog] messages. *)
Definition fullAgent : Agent :=
  set_chSend (repeat helloMessage WriteBacklog) workingAgent.

(** A working agent with one frame in the raw-write queue and one message in
    the send queue. *)
Definition busyAgent : Agent :=
  set_chWrite [[x03; x00; x00; x00]] (set_chSend [helloMessage] workingAgent).

(** Stamped at Unix second 8, with a heartbeat of a second and a half. *)
Definition fractionalAgent : Agent :=
  set_lastAt 8 (sampleAgent (1500 * time.Millisecond) cherrySession.Working).

(** Stamped at Unix second 100, with a heartbeat of a minute. *)
Definition minuteAgent : Agent :=
  set_lastAt 100 (sampleAgent (60 * time.Second) cherrySession.Working).

(** Everything offered at once: a pending death signal and a pending tick. *)
Definition fullOffer : Offer :=
  {| dieOffered := true; tick := Some (61 * time.Second) |}.

(** Only a tick, read at second 61. *)
Definition tickOffer : Offer :=
  {| dieOffered := false; tick := Some (61 * time.Second) |}.

(** A frame too short to decode. *)
Definition shortFrame : bytes := [x04; x00].

(** A heartbeat packet's frame. *)
Definition heartbeatFrame : bytes := [x03; x00; x00; x00].

(** A world whose connection refuses every write. *)
Definition brokenWorld : World :=
  {| writerSelecting := true;
     connWrite := fun _ => Err "write: broken pipe";
     connClose := None;
     profileDebug := false |}.

Definition lateMessage (n : N) : pendingMessage (App := sampleApp) :=
  @mkPending sampleApp cherryMessage.Push "chat.late" n (Some "late") false.

(** A working agent with room for one more message in its send queue. *)
Definition nearlyFullAgent : Agent :=
  set_chSend (repeat helloMessage 63) workingAgent.

End Examples.

(** A cluster with master [m1] and a serializer that writes a member as its
    node id and a list as the ids separated by commas. *)
Module DiscoveryExamples.
Import cherryDiscovery.

Definition member (nodeId nodeType : string) : cherryProto.Member :=
  {| cherryProto.NodeId := nodeId; cherryProto.NodeType := nodeType;
     cherryProto.Address := ""; cherryProto.Settings := [] |}.

Definition sampleSerializer : ISerializer :=
  {| MarshalMember := fun p => Ok (list_byte_of_string (cherryProto.NodeId p));
     UnmarshalMember := fun b =>
       match b with
       | [] => Err "unexpected end of input"
       | _ => Ok (member (string_of_list_byte b) "")
       end;
     MarshalMemberList := fun l =>
       Ok (list_byte_of_string (String.concat "," (map cherryProto.NodeId l))) |}.

Definition node (self : string) (members : list IMember) : DiscoveryNATS :=
  initSubjects
    {| memberList := members; appNodeId := self;
       masterMember := ProtoMember (member "m1" "center");
       registerSubject := ""; unregisterSubject := ""; addSubject := "" |}.

(** The master, knowing itself and the gate [g1]. *)
Definition masterNode : DiscoveryNATS :=
  node "m1" [ProtoMember (member "m1" "center"); ProtoMember (member "g1" "gate")].

(** The client [g1], knowing the master, itself and the gate [g2]. *)
Definition clientNode : DiscoveryNATS :=
  node "g1" [ProtoMember (member "m1" "center"); ProtoMember (member "g1" "gate");
             ProtoMember (member "g2" "gate")].

(** A bus on which everything goes through. *)
Definition goodBus : Bus :=
  {| respond := fun _ => None; publish := fun _ _ => None |}.

(** A bus whose message carries no reply subject: [Respond] fails. *)
Definition noReplyBus : Bus :=
  {| respond := fun _ => Some "nats: message does not have a reply subject";
     publish := fun _ _ => None |}.

(** A bus whose connection is closed: [Publish] fails. *)
Definition closedBus : Bus :=
  {| respond := fun _ => Some "nats: connection closed";
     publish := fun _ _ => Some "nats: connection closed" |}.

(** A reply holds the node id of one gate; an empty reply does not
    deserialize. *)
Definition sampleUnmarshalList (b : bytes) : result (list cherryProto.Member) :=
  match b with
  | [] => Err "unexpected end of input"
  | _ => Ok [member (string_of_list_byte b) "gate"]
  end.

End DiscoveryExamples.

(** ** package cherryCode *)
Module cherryCode.

(** The codes are int32 constants. *)
Definition OK : Z := 0.
Definition SessionUIDNotBind : Z := 10.
Definition DiscoveryNotFoundNode : Z := 11.
Definition AppIsStop : Z := 12.
Definition RPCNetError : Z := 20.
Definition RPCUnmarshalError : Z := 21.
Definition RPCMarshalError : Z := 22.
Definition RPCRemoteExecuteError : Z := 23.
Definition RPCReplyParamsError : Z := 24.
Definition RPCRouteDecodeError : Z := 25.
Definition RPCRouteHashError : Z := 26.
Definition RPCNotImplement : Z := 27.
Definition RPCHandlerError : Z := 28.

Definition IsOK (code : Z) : bool := code =? OK.

Definition IsFail (code : Z) : bool := negb (code =? OK).

(** The named codes other than [OK], in the order of their declaration. *)
Definition errors : list Z :=
  [SessionUIDNotBind; DiscoveryNotFoundNode; AppIsStop; RPCNetError;
   RPCUnmarshalError; RPCMarshalError; RPCRemoteExecuteError;
   RPCReplyParamsError; RPCRouteDecodeError; RPCRouteHashError;
   RPCNotImplement; RPCHandlerError].

End cherryCode.

(** ** package rpcCenter *)
Module rpcCenter.
Import cherryDiscovery.

Definition centerType : string := "center".

Definition opsActor : string := ".ops".
Definition accountActor : string := ".account".

Definition ping : string := "ping".
Definition registerDevAccount : string := "registerDevAccount".
Definition getDevAccount : string := "getDevAccount".
Definition getUID : string := "getUID".

(** The request values handed to [CallWait]: nil, [pb.DevRegister],
    [pb.User]. *)
Inductive Request : Type :=
| Nil
| DevRegister (AccountName Password Ip : string)
| User (SdkId Pid : Z) (OpenId : string).

(** One [CallWait(source, target, funcName, request, response)]. *)
Record Call : Type := mkCall {
  source : string;
  target : string;
  funcName : string;
  request : Request
}.

(** What these functions ask of [cfacade.IApplication]: the members of a
    type, as [app.Discovery().ListByType] lists them, and
    [app.ActorSystem().CallWait], whose answer is the error or the [Value]
    left in the response it was given ([pb.Bool], [pb.Int32], [pb.Int64]).
    The three codes are constants of the demo's package [code], which is not
    among the sources. *)
Class Facade : Type := {
  ListByType : string -> list IMember;
  CallWaitBool : Call -> result bool;
  CallWaitInt32 : Call -> result Z;
  CallWaitInt64 : Call -> result Z;
  AccountRegisterError : Z;
  AccountGetFail : Z;
  OK : Z
}.

(** What a function does that is visible outside. *)
Inductive Effect : Type :=
| Called (c : Call)
| Warnf (format : string).

Section Center.
Context `{app : Facade}.

Definition GetCenterNodeID : string :=
  match ListByType centerType with
  | first :: _ => GetNodeId first
  | [] => ""
  end.

Definition GetTargetPath (actorID : string) : string :=
  (GetCenterNodeID ++ actorID)%string.

Definition Ping : bool * list Effect :=
  let nodeId := GetCenterNodeID in
  if String.eqb nodeId ""
  then (false, [])
  else
    let call := mkCall "" (nodeId ++ opsActor)%string ping Nil in
    match CallWaitBool call with
    | Err _ => (false, [Called call])
    | Ok value => (value, [Called call])
    end.

Definition RegisterDevAccount (accountName password ip : string)
  : Z * list Effect :=
  let call := mkCall "" (GetTargetPath accountActor) registerDevAccount
                (DevRegister accountName password ip) in
  match CallWaitInt32 call with
  | Err _ =>
    (AccountRegisterError,
     [Called call; Warnf "[RegisterDevAccount] accountName = %s, err = %v"])
  | Ok value => (value, [Called call])
  end.

Definition GetDevAccount (accountName password : string) : Z * list Effect :=
  let call := mkCall "" (GetTargetPath accountActor) getDevAccount
                (DevRegister accountName password "") in
  match CallWaitInt64 call with
  | Err _ =>
    (0, [Called call; Warnf "[GetDevAccount] accountName = %s, err = %v"])
  | Ok value => (value, [Called call])
  end.

Definition GetUID (sdkId pid : Z) (openId : string) : (Z * Z) * list Effect :=
  let call := mkCall "" (GetTargetPath accountActor) getUID
                (User sdkId pid openId) in
  match CallWaitInt64 call with
  | Err _ => ((0, AccountGetFail), [Called call; Warnf "[GetUID] err = %v"])
  | Ok value => ((value, OK), [Called call])
  end.

(** The calls among the effects, in order. *)
Fixpoint calls (tr : list Effect) : list Call :=
  match tr with
  | [] => []
  | Called c :: rest => c :: calls rest
  | Warnf _ :: rest => calls rest
  end.

End Center.
End rpcCenter.

(** ** package cherryDiscovery: the client side of [init] *)
Module cherryDiscoveryClient.
Import cherryDiscovery.

(** What [clientInit] does beyond the events of the handlers. *)
Inductive ClientEvent : Type :=
| Ev (e : Event)
| Requested (subject : string) (data : bytes)   (* m.natsConn.Request *)
| Infof (format : string)
| Slept.                                        (* time.Sleep(m.natsConn.ReconnectDelay()) *)

(** How far [clientInit] got. *)
Inductive ClientOutcome : Type :=
| NotStarted (m : DiscoveryNATS) (tr : list ClientEvent)  (* returned before the loop *)
| Registered (m : DiscoveryNATS) (tr : list ClientEvent)  (* the loop was left by break *)
| Retrying (m : DiscoveryNATS) (tr : list ClientEvent).   (* still in the loop *)

Definition before (tr : list ClientEvent) (o : ClientOutcome) : ClientOutcome :=
  match o with
  | NotStarted m t => NotStarted m (tr ++ t)
  | Registered m t => Registered m (tr ++ t)
  | Retrying m t => Retrying m (tr ++ t)
  end.

Definition registry (o : ClientOutcome) : list IMember :=
  match o with
  | NotStarted m _ | Registered m _ | Retrying m _ => memberList m
  end.

Definition events (o : ClientOutcome) : list ClientEvent :=
  match o with
  | NotStarted _ t | Registered _ t | Retrying _ t => t
  end.

(** A message a node's subscriptions may bring in. *)
Inductive Incoming : Type :=
| OnRegister (data : bytes)
| OnUnregister (data : bytes)
| OnAddMember (data : bytes).

Section Client.
Context `{Ser : ISerializer}.

(** [Serializer().Unmarshal] into a [cproto.MemberList]. *)
Variable UnmarshalMemberList : bytes -> result (list cherryProto.Member).

(** The callback [clientInit] subscribes on the addMember subject. *)
Definition addMemberHandler (m : DiscoveryNATS) (data : bytes)
  : DiscoveryNATS * list Event :=
  match UnmarshalMember data with
  | Err _ => (m, [Warnf "err = %s"])
  | Ok addMember =>
    match GetMember (cherryProto.NodeId addMember) (memberList m) with
    | Some _ => (m, [])
    | None =>
      (set_memberList (AddMember (ProtoMember addMember) (memberList m)) m,
       [RegistryAdd (ProtoMember addMember)])
    end
  end.

(** The [range memberList.GetList()] loop of [clientInit]. *)
Definition ingest (members : list cherryProto.Member) (l : list IMember)
  : list IMember :=
  fold_left (fun l p => AddMember (ProtoMember p) l) members l.

(** The [for] loop of [clientInit], against the successive answers of
    [natsConn.Request].  When the answers run out the client is still
    asking. *)
Fixpoint registerLoop (bytesData : bytes) (replies : list (result bytes))
    (m : DiscoveryNATS) : ClientOutcome :=
  match replies with
  | [] => Retrying m []
  | Err _ :: rest =>
    before [Requested (registerSubject m) bytesData;
            Ev (Warnf "register node to [master = %s] fail. [address = %s] [err = %s]");
            Slept]
           (registerLoop bytesData rest m)
  | Ok rspData :: rest =>
    match UnmarshalMemberList rspData with
    | Err _ =>
      before [Requested (registerSubject m) bytesData;
              Infof "register node to [master = %s]. [member = %s]";
              Ev (Warnf "err = %s");
              Slept]
             (registerLoop bytesData rest m)
    | Ok members =>
      Registered (set_memberList (ingest members (memberList m)) m)
        ([Requested (registerSubject m) bytesData;
          Infof "register node to [master = %s]. [member = %s]"] ++
         map (fun p => Ev (RegistryAdd (ProtoMember p))) members)
    end
  end.

(** [clientInit]; [nodeType] and [address] are [m.app.NodeType()] and
    [m.app.RpcAddress()], [subscribeErr] the error, if any, of
    [natsConn.Subscribe]. *)
Definition clientInit (nodeType address : string)
    (subscribeErr : string -> option string)
    (replies : list (result bytes)) (m : DiscoveryNATS) : ClientOutcome :=
  if negb (isClient m)
  then NotStarted m []
  else
    let registerMember :=
      {| cherryProto.NodeId := appNodeId m; cherryProto.NodeType := nodeType;
         cherryProto.Address := address; cherryProto.Settings := [] |} in
    match MarshalMember registerMember with
    | Err _ => NotStarted m [Ev (Warnf "err = %s")]
    | Ok bytesData =>
      before [match subscribeErr (addSubject m) with
              | Some _ => Ev (Warnf "subscribe fail. err = %s")
              | None => Ev (Subscribed (addSubject m))
              end]
             (registerLoop bytesData replies m)
    end.

(** The handler a message reaches: every node subscribes the unregister
    handler, the master the register handler, a client the addMember
    handler; a message on a subject the node has not subscribed is not
    delivered. *)
Definition deliver (bus : Bus) (m : DiscoveryNATS) (msg : Incoming)
  : DiscoveryNATS * list Event :=
  match msg with
  | OnUnregister data => unregisterHandler m data
  | OnRegister data =>
    if isMaster m then registerHandler bus m data else (m, [])
  | OnAddMember data =>
    if isClient m then addMemberHandler m data else (m, [])
  end.

(** Messages delivered one after the other. *)
Fixpoint deliverAll (bus : Bus) (m : DiscoveryNATS) (msgs : list Incoming)
  : DiscoveryNATS :=
  match msgs with
  | [] => m
  | msg :: rest => deliverAll bus (fst (deliver bus m msg)) rest
  end.

(** An answer of [Request] after which the loop goes round again. *)
Definition attempt_fails (r : result bytes) : bool :=
  match r with
  | Err _ => true
  | Ok rspData => negb (is_ok (UnmarshalMemberList rspData))
  end.

Fixpoint sleeps (tr : list ClientEvent) : nat :=
  match tr with
  | [] => 0
  | Slept :: rest => S (sleeps rest)
  | _ :: rest => sleeps rest
  end.

End Client.
End cherryDiscoveryClient.

(** * Properties of the agent *)

Section AgentProperties.
Import cherryAgent.
Context `{App : IApplication}.

(** [Seconds() < 1] holds exactly for durations below one second. *)
Lemma Seconds_below_one (d : time.Duration) :
  negb (Qle_bool 1 (time.Seconds d)) = (d <? time.Second).
Proof.
  unfold time.Seconds.
  pose proof (Z.quot_rem' d time.Second) as Hd.
  destruct (Qle_bool 1 _) eqn:Hq; simpl; symmetry.
  - apply Qle_bool_iff in Hq.
    unfold Qle, Qplus, inject_Z in Hq; simpl in Hq.
    apply Z.ltb_ge. unfold time.Second in *. lia.
  - apply Z.ltb_lt.
    destruct (Z_lt_ge_dec d time.Second) as [Hlt | Hge]; [exact Hlt | exfalso].
    assert (Hle : (1 <= inject_Z (d ÷ time.Second) + (Z.rem d time.Second # 1000000000))%Q).
    { unfold Qle, Qplus, inject_Z; simpl. unfold time.Second in *. lia. }
    apply Qle_bool_iff in Hle. congruence.
Qed.

(** C6. Whatever options are passed to [NewAgent], the heartbeat of the
    agent it returns is sixty seconds when the configured heartbeat is below
    one second (in particular when it is the zero value of an unset field),
    and the configured heartbeat, unchanged, otherwise; the command table is
    kept as it is. *)
Theorem NewAgent_heartbeat (opts : Options) :
  Heartbeat (Options_of (NewAgent opts)) =
    (if Heartbeat opts <? time.Second then 60 * time.Second else Heartbeat opts)
  /\ Commands (Options_of (NewAgent opts)) = Commands opts
  /\ (forall cmds,
        Heartbeat (Options_of (NewAgent {| Heartbeat := 0; Commands := cmds |}))
        = 60 * time.Second).
Proof.
  assert (Hh : forall o, Heartbeat (Options_of (NewAgent o)) =
             if Heartbeat o <? time.Second then 60 * time.Second else Heartbeat o).
  { intro o. unfold NewAgent. cbn [Options_of].
    rewrite Seconds_below_one.
    destruct (Heartbeat o <? time.Second); reflexivity. }
  split; [apply Hh | split].
  - unfold NewAgent. cbn [Options_of].
    destruct (negb _); reflexivity.
  - intro cmds. rewrite Hh. reflexivity.
Qed.

(** *** Send *)

(** A send that is neither on a closed session nor on a full queue appends
    the message at the tail of the queue, behind the earlier ones. *)
Lemma Send_enqueues typ route mid v isError (a : Agent) s :
  Session a = Some s ->
  cherrySession.State_of s <> cherrySession.Closed ->
  (List.length (chSend a) < WriteBacklog)%nat ->
  Send typ route mid v isError a =
    Returned (set_chSend (chSend a ++ [mkPending typ route mid v isError]) a) [].
Proof.
  intros Hs Hst Hlen. unfold Send. rewrite Hs.
  assert (Hc : cherrySession.State_eqb (cherrySession.State_of s) cherrySession.Closed = false)
    by (destruct (cherrySession.State_of s); [reflexivity | reflexivity | congruence]).
  apply Nat.leb_gt in Hlen. rewrite Hc, Hlen. reflexivity.
Qed.

(** C1 (amended). A send on a closed session, or with [WriteBacklog]
    messages or more already in the send queue, returns with the agent
    exactly as it was (so nothing is enqueued and the messages enqueued
    earlier stay as they are) and logs one warning.  No field of the agent
    counts dropped messages. *)
Theorem Send_drops typ route mid v isError (a : Agent) s :
  Session a = Some s ->
  cherrySession.State_of s = cherrySession.Closed
    \/ (WriteBacklog <= List.length (chSend a))%nat ->
  Send typ route mid v isError a =
    Returned a
      [SessionWarnf
         (if cherrySession.State_eqb (cherrySession.State_of s) cherrySession.Closed
          then "[send] session status == Closed"
          else "[send] session send buffer exceed")].
Proof.
  intros Hs Hdrop. unfold Send. rewrite Hs.
  destruct (cherrySession.State_eqb (cherrySession.State_of s) cherrySession.Closed) eqn:Hc;
    [reflexivity |].
  destruct Hdrop as [Hclosed | Hfull].
  - rewrite Hclosed in Hc. discriminate.
  - apply Nat.leb_le in Hfull. rewrite Hfull. reflexivity.
Qed.

(** *** Close *)

(** On a session that is already closed, [Close] returns at once: no field
    changes and nothing happens outside, whoever is or is not receiving. *)
Lemma Close_closed receiver w (a : Agent) s :
  Session a = Some s ->
  cherrySession.State_of s = cherrySession.Closed ->
  Close receiver w a = Returned a [].
Proof.
  intros Hs Hst. unfold Close. rewrite Hs, Hst. reflexivity.
Qed.

(** With a receiver on [chDie], the first [Close] sets the state, runs the
    hooks, hands over the death signal and closes the connection, in that
    order. *)
Lemma Close_open_received w (a : Agent) s :
  Session a = Some s ->
  cherrySession.State_of s <> cherrySession.Closed ->
  Close true w a =
    Returned (set_Session (cherrySession.SetState cherrySession.Closed s) a)
      ([OnCloseProcess; ChDieSent; ConnClose] ++
       match connClose w with
       | Some _ => [SessionDebugf "session close error[%s]"]
       | None => []
       end).
Proof.
  intros Hs Hst. unfold Close. rewrite Hs.
  destruct (cherrySession.State_of s); try congruence; reflexivity.
Qed.

(** Without a receiver on [chDie], the first [Close] sets the state and runs
    the hooks and then waits on the send: the connection is not closed. *)
Lemma Close_open_not_received w (a : Agent) s :
  Session a = Some s ->
  cherrySession.State_of s <> cherrySession.Closed ->
  Close false w a =
    Blocked OnChDie
      (set_Session (cherrySession.SetState cherrySession.Closed s) a)
      [OnCloseProcess].
Proof.
  intros Hs Hst. unfold Close. rewrite Hs.
  destruct (cherrySession.State_of s); try congruence; reflexivity.
Qed.

(** A second [Close] after a first one that returned does nothing. *)
Lemma Close_twice receiver w (a a1 : Agent) tr s :
  Session a = Some s ->
  Close true w a = Returned a1 tr ->
  Close receiver w a1 = Returned a1 [].
Proof.
  intros Hs H1. unfold Close in H1. rewrite Hs in H1.
  destruct (cherrySession.State_eqb (cherrySession.State_of s) cherrySession.Closed) eqn:Hc.
  - inversion H1; subst a1.
    unfold Close. rewrite Hs, Hc. reflexivity.
  - inversion H1; subst a1. reflexivity.
Qed.

(** *** Kick *)



(** *** The writer's select *)

(** C2 (amended). In an iteration of the writer loop the [select] can take
    a source exactly when that source is ready: any ready source may be the
    one processed, whatever else is ready, and no other one.  The order
    death signal, tick, raw-write queue, send queue is the order of the
    cases in the text, not a priority. *)
Theorem select_takes_any_ready_source (w : World) (o : Offer) (a : Agent)
    (src : Source) :
  ready o a src = true <-> exists st, selectCase w o src a = Some st.
Proof.
  unfold ready, selectCase. split.
  - intro Hr. destruct src.
    + rewrite Hr. eexists; reflexivity.
    + destruct (tick o); [eexists; reflexivity | discriminate].
    + destruct (chWrite a); [discriminate | eexists; reflexivity].
    + destruct (chSend a); [discriminate | eexists; reflexivity].
  - intros [st Hst]. destruct src.
    + destruct (dieOffered o); [reflexivity | discriminate].
    + destruct (tick o); [reflexivity | discriminate].
    + destruct (chWrite a); [discriminate | reflexivity].
    + destruct (chSend a); [discriminate | reflexivity].
Qed.

(** When the writer receives the death signal, some [Close] has set the
    session to [Closed]: the loop returns, the deferred [Close] does nothing
    and the two queues are closed. *)
Lemma write_death_signal w o rest (a : Agent) s :
  Session a = Some s ->
  dieOffered o = true ->
  write w ((o, SrcDie) :: rest) a =
    Returned (set_Session (cherrySession.SetState cherrySession.Closed s) a)
      [ChDieReceived; SessionDebugf "close session. [sid = %s]"; TickerStop;
       CloseChSend; CloseChWrite].
Proof.
  intros Hs Ho. simpl. rewrite Ho. unfold observeClosed. rewrite Hs.
  reflexivity.
Qed.

(** *** The heartbeat check *)

Lemma Unix_sub_seconds (now : time.Time) (h : Z) :
  time.Unix (now - h * time.Second) = time.Unix now - h.
Proof.
  unfold time.Unix.
  replace (now - h * time.Second) with (now + (- h) * time.Second) by ring.
  rewrite Z.div_add by (unfold time.Second; lia). ring.
Qed.

Lemma Unix_mono (t u : time.Time) : t <= u -> time.Unix t <= time.Unix u.
Proof.
  intro H. unfold time.Unix. apply Z.div_le_mono; [unfold time.Second; lia | exact H].
Qed.

Lemma Unix_add_second (t : time.Time) :
  time.Unix (t + time.Second) = time.Unix t + 1.
Proof.
  unfold time.Unix.
  replace (t + time.Second) with (t + 1 * time.Second) by ring.
  apply Z.div_add. unfold time.Second; lia.
Qed.

Lemma tickCase_exit (now : time.Time) (a : Agent) :
  lastAt a < time.Unix (now - Heartbeat (Options_of a)) ->
  tickCase now a = Exit a [SessionDebugf "check heartbeat timeout."].
Proof.
  intro H. unfold tickCase, time.Add.
  replace (now + - Heartbeat (Options_of a)) with (now - Heartbeat (Options_of a)) by ring.
  apply Z.ltb_lt in H. rewrite H. reflexivity.
Qed.

Lemma tickCase_continue (now : time.Time) (a : Agent) :
  time.Unix (now - Heartbeat (Options_of a)) <= lastAt a ->
  tickCase now a = Continue a [].
Proof.
  intro H. unfold tickCase, time.Add.
  replace (now + - Heartbeat (Options_of a)) with (now - Heartbeat (Options_of a)) by ring.
  apply Z.ltb_ge in H. rewrite H. reflexivity.
Qed.

(** A packet whose command is found stamps [lastAt] with the Unix second of
    the clock reading. *)
Lemma processPacket_stamps now packet (a : Agent) cmd s :
  Commands (Options_of a) (cherryPacket.Type_of packet) = Some cmd ->
  Session a = Some s ->
  processPacket now packet a =
    (SetLastAt now (set_Session (cmd s packet) a), [CommandDo packet])
  /\ lastAt (fst (processPacket now packet a)) = time.Unix now.
Proof.
  intros Hc Hs. unfold processPacket. rewrite Hc, Hs. split; reflexivity.
Qed.

(** C5 (amended). At a heartbeat tick read at [now], the writer leaves its
    loop exactly when the stamp is below the Unix second of [now -
    heartbeat].  For a heartbeat of [h] whole seconds that is: the Unix
    second of [now] minus the stamp is strictly greater than [h].  Hence,
    the stamp being that of a packet processed at [t]: if the packet is at
    most one heartbeat old the writer goes on; if it is one heartbeat and a
    second old, or older, the writer leaves; and once the packet is more
    than one heartbeat old (the heartbeat being a second at least) the tick
    one heartbeat later leaves at the latest. *)
Theorem heartbeat_tick (now : time.Time) (a : Agent) :
  (exits (tickCase now a) = true <->
     lastAt a < time.Unix (now - Heartbeat (Options_of a)))
  /\ (forall h, Heartbeat (Options_of a) = h * time.Second ->
        (exits (tickCase now a) = true <-> time.Unix now - lastAt a > h))
  /\ (forall t, lastAt a = time.Unix t ->
        now - t <= Heartbeat (Options_of a) ->
        tickCase now a = Continue a [])
  /\ (forall t, lastAt a = time.Unix t ->
        Heartbeat (Options_of a) + time.Second <= now - t ->
        tickCase now a = Exit a [SessionDebugf "check heartbeat timeout."])
  /\ (forall t, lastAt a = time.Unix t ->
        time.Second <= Heartbeat (Options_of a) ->
        Heartbeat (Options_of a) < now - t ->
        tickCase (now + Heartbeat (Options_of a)) a =
          Exit a [SessionDebugf "check heartbeat timeout."]).
Proof.
  assert (Hiff : exits (tickCase now a) = true <->
                 lastAt a < time.Unix (now - Heartbeat (Options_of a))).
  { destruct (Z_lt_ge_dec (lastAt a) (time.Unix (now - Heartbeat (Options_of a))))
      as [Hlt | Hge].
    - rewrite (tickCase_exit _ _ Hlt). simpl. tauto.
    - rewrite tickCase_continue by lia. simpl. split; [discriminate | lia]. }
  assert (Hold : forall u t, lastAt a = time.Unix t ->
            Heartbeat (Options_of a) + time.Second <= u - t ->
            tickCase u a = Exit a [SessionDebugf "check heartbeat timeout."]).
  { intros u t Ht Hu. apply tickCase_exit. rewrite Ht.
    pose proof (Unix_mono (t + time.Second) (u - Heartbeat (Options_of a))) as Hm.
    rewrite Unix_add_second in Hm. lia. }
  split; [exact Hiff |]. split; [| split; [| split]].
  - intros h Hh. rewrite Hiff, Hh, Unix_sub_seconds. lia.
  - intros t Ht Hle. apply tickCase_continue. rewrite Ht.
    apply Unix_mono. lia.
  - intros t. apply Hold.
  - intros t Ht Hsec Hlt. apply (Hold _ t Ht). lia.
Qed.

(** *** The reader *)

Lemma after_nil (o : Outcome) : after [] o = o.
Proof. destruct o; reflexivity. Qed.

Lemma after_after (t1 t2 : list Event) (o : Outcome) :
  after t1 (after t2 o) = after (t1 ++ t2) o.
Proof. destruct o; simpl; rewrite app_assoc; reflexivity. Qed.

(** Processing packets tears nothing down. *)
Lemma processPackets_no_teardown clock packets : forall i (a : Agent),
  Forall (fun e => is_teardown e = false) (snd (processPackets clock i packets a)).
Proof.
  induction packets as [| packet rest IH]; intros i a; simpl.
  - constructor.
  - destruct (processPacket (clock i) packet a) as [a1 tr1] eqn:H1.
    specialize (IH (S i) a1).
    destruct (processPackets clock (S i) rest a1) as [a2 tr2]. simpl in *.
    apply Forall_app. split; [| exact IH].
    unfold processPacket in H1.
    destruct (Commands (Options_of a) (cherryPacket.Type_of packet)).
    + destruct (Session a); inversion H1; subst; repeat constructor.
    + inversion H1; subst; repeat constructor.
Qed.

(** As long as the connection hands over frames, the reader stays in its
    loop, waiting for the next frame, and tears nothing down; a read error
    after those frames ends the loop and runs [Close]. *)
Lemma read_frames w frames : forall (a : Agent),
  Forall (fun r => is_message r = true) frames ->
  exists a1 tr1,
    read w frames a = Blocked OnConnRead a1 tr1
    /\ Forall (fun e => is_teardown e = false) tr1
    /\ forall e rest,
         read w (frames ++ ReadError e :: rest) a =
           after tr1 (Close (writerSelecting w) w a1).
Proof.
  induction frames as [| r frames IH]; intros a Hall.
  - exists a, []. simpl. repeat split; [constructor |].
    intros. symmetry. apply after_nil.
  - inversion Hall as [| r' l' Hr Hrest]; subst.
    destruct r as [e | msg clock]; [discriminate |]. simpl.
    destruct (PacketDecode msg) as [packets | e].
    + pose proof (processPackets_no_teardown clock packets 0%nat a) as Hq.
      destruct (processPackets clock 0 packets a) as [a0 tr0]. simpl in Hq.
      destruct (IH a0 Hrest) as (a1 & tr1 & Hread & Hquiet & Herr).
      exists a1, (tr0 ++ tr1). rewrite Hread. simpl.
      repeat split; [apply Forall_app; split; assumption |].
      intros e rest. rewrite Herr. apply after_after.
    + destruct (IH a Hrest) as (a1 & tr1 & Hread & Hquiet & Herr).
      exists a1, (SessionWarnf "packet decoder error. error[%s], msg[%s]" :: tr1).
      rewrite Hread. simpl.
      repeat split; [constructor; [reflexivity | assumption] |].
      intros e' rest. rewrite Herr. apply after_after.
Qed.

(** C8. In the reader loop a frame whose decoding fails is logged and
    skipped: the agent is as before and the loop goes on with the next read.
    Whatever frames are read, the loop tears nothing down (no hook runs, no
    death signal, no close of the connection) and stays waiting for the next
    one.  An error of the read ends the loop, whatever would follow, and
    runs [Close] on the agent. *)
Theorem read_decode_error_skips_read_error_closes (w : World) (a : Agent) :
  (forall msg clock rest e,
      PacketDecode msg = Err e ->
      read w (ReadMessage msg clock :: rest) a =
        after [SessionWarnf "packet decoder error. error[%s], msg[%s]"]
              (read w rest a))
  /\ (forall e rest,
        read w (ReadError e :: rest) a = Close (writerSelecting w) w a)
  /\ (forall frames,
        Forall (fun r => is_message r = true) frames ->
        exists a1 tr1,
          read w frames a = Blocked OnConnRead a1 tr1
          /\ ~ In ConnClose tr1
          /\ forall e rest,
               read w (frames ++ ReadError e :: rest) a =
                 after tr1 (Close (writerSelecting w) w a1)).
Proof.
  split; [| split].
  - intros msg clock rest e He. simpl. rewrite He. reflexivity.
  - reflexivity.
  - intros frames Hall.
    destruct (read_frames w frames a Hall) as (a1 & tr1 & Hread & Hquiet & Herr).
    exists a1, tr1. repeat split; try assumption.
    intro Hin. rewrite Forall_forall in Hquiet.
    specialize (Hquiet _ Hin). discriminate.
Qed.

End AgentProperties.

(** ** The agent on concrete runs *)

Section AgentRuns.
Import cherryAgent Examples.

Lemma Send_drops_witness :
  Send (App := sampleApp) cherryMessage.Push "chat.hello" 0%N (Some "late")
       false fullAgent
  = Returned fullAgent [SessionWarnf "[send] session send buffer exceed"].
Proof.
  apply (Send_drops (App := sampleApp) cherryMessage.Push "chat.hello" 0%N
           (Some "late") false fullAgent (sampleSession cherrySession.Working)).
  - reflexivity.
  - right. vm_compute. lia.
Defined.

(** C1, as stated, fails: a dropped send leaves every field of the agent as
    it was and its only effect outside is the warning, so nothing that could
    serve as a drop counter goes up, be the session closed or the queue
    full. *)
Lemma Send_has_no_drop_counter :
  Send (App := sampleApp) cherryMessage.Push "chat.hello" 0%N (Some "late")
       false closedAgent
  = Returned closedAgent [SessionWarnf "[send] session status == Closed"]
  /\ Send (App := sampleApp) cherryMessage.Push "chat.hello" 0%N (Some "late")
          false fullAgent
     = Returned fullAgent [SessionWarnf "[send] session send buffer exceed"]
  /\ ~ (exists dropCounter : Agent (App := sampleApp) -> nat,
          forall a1 tr,
            Send (App := sampleApp) cherryMessage.Push "chat.hello" 0%N
                 (Some "late") false closedAgent = Returned a1 tr ->
            dropCounter a1 = S (dropCounter closedAgent))
  /\ ~ (exists dropCounter : Agent (App := sampleApp) -> nat,
          forall a1 tr,
            Send (App := sampleApp) cherryMessage.Push "chat.hello" 0%N
                 (Some "late") false fullAgent = Returned a1 tr ->
            dropCounter a1 = S (dropCounter fullAgent)).
Proof.
  assert (Hc : Send (App := sampleApp) cherryMessage.Push "chat.hello" 0%N
                 (Some "late") false closedAgent
               = Returned closedAgent [SessionWarnf "[send] session status == Closed"])
    by reflexivity.
  assert (Hf : Send (App := sampleApp) cherryMessage.Push "chat.hello" 0%N
                 (Some "late") false fullAgent
               = Returned fullAgent [SessionWarnf "[send] session send buffer exceed"])
    by reflexivity.
  repeat split; try assumption.
  - intros [c H]. specialize (H _ _ Hc). lia.
  - intros [c H]. specialize (H _ _ Hf). lia.
Qed.

(** C2, as stated, fails: with the death signal, a tick, a raw frame and a
    message all ready, the [select] may take the send queue, the last of the
    four in the order given. *)
Lemma select_has_no_priority :
  (forall src, ready fullOffer busyAgent src = true)
  /\ selectCase quietWorld fullOffer SrcSend busyAgent
     = Some (Continue
               (set_chWrite [heartbeatFrame;
                             [x04; x00; x00; x05; x68; x65; x6c; x6c; x6f]]
                  (set_chSend [] busyAgent)) [])
  /\ ~ priority_respected quietWorld fullOffer busyAgent.
Proof.
  split; [intros []; reflexivity | split; [reflexivity |]].
  intro H.
  specialize (H SrcSend _ eq_refl SrcDie eq_refl). simpl in H. lia.
Qed.

(** C4: the first [Close] of a session, made by the writer itself after a
    heartbeat timeout.  The agent is working and was never stamped; the tick
    read at second 61 ends the loop; the deferred [Close] sets the state and
    runs the hooks and then waits for ever on [chDie], which the writer alone
    reads.  The connection is never closed and the queues are never closed. *)
Lemma writer_timeout_leaves_connection_open :
  write quietWorld [(tickOffer, SrcTick)] workingAgent
  = Blocked OnChDie
      (set_Session (sampleSession cherrySession.Closed) workingAgent)
      [SessionDebugf "check heartbeat timeout.";
       SessionDebugf "close session. [sid = %s]";
       TickerStop;
       OnCloseProcess]
  /\ ~ In ConnClose (trace (write quietWorld [(tickOffer, SrcTick)] workingAgent))
  /\ ~ In ChDieSent (trace (write quietWorld [(tickOffer, SrcTick)] workingAgent)).
Proof.
  split; [reflexivity |].
  split; simpl; intuition discriminate.
Qed.

(** C5, as stated, fails.  With a heartbeat of a second and a half, a stamp
    at second 8 and a tick at second 10, two seconds have elapsed and the
    writer goes on.  With a heartbeat of a minute, a stamp at second 100 and
    a tick at 160.5 s, more than a minute has elapsed and the writer goes
    on. *)
Lemma heartbeat_tick_is_not_elapsed_time :
  (elapsed_exceeds_heartbeat (10 * time.Second) fractionalAgent
   /\ tickCase (10 * time.Second) fractionalAgent = Continue fractionalAgent [])
  /\ (elapsed_ns_exceeds_heartbeat (160 * time.Second + 500 * time.Millisecond)
                                   minuteAgent
      /\ tickCase (160 * time.Second + 500 * time.Millisecond) minuteAgent
         = Continue minuteAgent []).
Proof.
  repeat split.
Qed.

Lemma heartbeat_tick_witness :
  (exits (tickCase (161 * time.Second) minuteAgent) = true <->
     time.Unix (161 * time.Second) - lastAt minuteAgent > 60)
  /\ tickCase (160 * time.Second) minuteAgent = Continue minuteAgent []
  /\ tickCase (161 * time.Second) minuteAgent
     = Exit minuteAgent [SessionDebugf "check heartbeat timeout."]
  /\ tickCase (160 * time.Second + 500 * time.Millisecond
               + Heartbeat (Options_of minuteAgent)) minuteAgent
     = Exit minuteAgent [SessionDebugf "check heartbeat timeout."].
Proof.
  split; [| split; [| split]].
  - destruct (heartbeat_tick (App := sampleApp) (161 * time.Second) minuteAgent)
      as (_ & Hwhole & _).
    apply (Hwhole 60). reflexivity.
  - destruct (heartbeat_tick (App := sampleApp) (160 * time.Second) minuteAgent)
      as (_ & _ & Hyoung & _).
    apply (Hyoung (100 * time.Second)); [reflexivity | vm_compute; discriminate].
  - destruct (heartbeat_tick (App := sampleApp) (161 * time.Second) minuteAgent)
      as (_ & _ & _ & Hold & _).
    apply (Hold (100 * time.Second)); [reflexivity | vm_compute; discriminate].
  - destruct (heartbeat_tick (App := sampleApp)
                (160 * time.Second + 500 * time.Millisecond) minuteAgent)
      as (_ & _ & _ & _ & Hnext).
    apply (Hnext (100 * time.Second));
      [reflexivity | vm_compute; discriminate | vm_compute; reflexivity].
Defined.

Lemma read_witness :
  read (App := sampleApp) quietWorld
       [ReadMessage shortFrame (fun _ => 5 * time.Second);
        ReadMessage heartbeatFrame (fun _ => 7 * time.Second);
        ReadError "EOF"]
       workingAgent
  = Returned
      (set_Session (sampleSession cherrySession.Closed) (set_lastAt 7 workingAgent))
      [SessionWarnf "packet decoder error. error[%s], msg[%s]";
       CommandDo (cherryPacket.mkPacket cherryPacket.Heartbeat []);
       OnCloseProcess; ChDieSent; ConnClose].
Proof.
  destruct (read_decode_error_skips_read_error_closes (App := sampleApp)
              quietWorld workingAgent) as (Hskip & _ & Hframes).
  destruct (Hframes [ReadMessage shortFrame (fun _ => 5 * time.Second);
                     ReadMessage heartbeatFrame (fun _ => 7 * time.Second)])
    as (a1 & tr1 & Hread & _ & Herr).
  - repeat constructor.
  - rewrite (Hskip shortFrame _ _ "packet invalid" eq_refl) in Hread.
    simpl in Hread. inversion Hread; subst a1 tr1.
    exact (Herr "EOF" []).
Defined.


End AgentRuns.

(** * Properties of discovery *)

Section DiscoveryProperties.
Import cherryDiscovery.
Context `{Ser : ISerializer}.

(** *** The registry *)

Lemma GetMember_Some nodeId l x :
  GetMember nodeId l = Some x -> In x l /\ GetNodeId x = nodeId.
Proof.
  unfold GetMember. intro H. apply find_some in H.
  destruct H as [Hin Heq]. apply String.eqb_eq in Heq. auto.
Qed.

Lemma GetMember_None nodeId l :
  GetMember nodeId l = None <-> forall x, In x l -> GetNodeId x <> nodeId.
Proof.
  unfold GetMember. split.
  - intros H x Hin Heq.
    pose proof (find_none _ _ H x Hin) as Hn. simpl in Hn.
    apply String.eqb_neq in Hn. contradiction.
  - intro H. induction l as [| y l IH]; [reflexivity |]. simpl.
    destruct (String.eqb_spec (GetNodeId y) nodeId) as [Heq | Hne].
    + exfalso. apply (H y); [left; reflexivity | exact Heq].
    + apply IH. intros x Hin. apply H. right. exact Hin.
Qed.

Lemma RemoveMember_In nodeId l x :
  In x (RemoveMember nodeId l) <-> In x l /\ GetNodeId x <> nodeId.
Proof.
  unfold RemoveMember. rewrite filter_In, negb_true_iff, String.eqb_neq. tauto.
Qed.

Lemma RemoveMember_gone nodeId l : GetMember nodeId (RemoveMember nodeId l) = None.
Proof.
  apply GetMember_None. intros x Hin. apply RemoveMember_In in Hin. tauto.
Qed.

Lemma AddMember_present member l :
  exists x, GetMember (GetNodeId member) (AddMember member l) = Some x.
Proof.
  unfold AddMember.
  destruct (GetMember (GetNodeId member) l) as [x |] eqn:Hg.
  - exists x. exact Hg.
  - exists member. unfold GetMember in *.
    induction l as [| y l IH]; simpl in *.
    + rewrite String.eqb_refl. reflexivity.
    + destruct (String.eqb (GetNodeId y) (GetNodeId member)); [discriminate |].
      apply IH. exact Hg.
Qed.

Lemma AddMember_new member l :
  GetMember (GetNodeId member) l = None -> AddMember member l = l ++ [member].
Proof. unfold AddMember. intros ->. reflexivity. Qed.

Lemma AddMember_idempotent member l :
  AddMember member (AddMember member l) = AddMember member l.
Proof.
  destruct (AddMember_present member l) as [x Hx].
  unfold AddMember at 1. rewrite Hx. reflexivity.
Qed.

(** *** The reply list *)

(** The reply list is the registry, in its order, without the entries of the
    two node ids and without the entries that are not [cproto.Member]. *)
Lemma rspMemberList_filter newNodeId self l :
  map ProtoMember (rspMemberList newNodeId self l) =
    filter (fun m => negb (String.eqb (GetNodeId m) newNodeId)
                     && negb (String.eqb (GetNodeId m) self)
                     && is_proto m) l.
Proof.
  induction l as [| member rest IH]; [reflexivity |]. simpl.
  destruct (String.eqb (GetNodeId member) newNodeId); simpl; [exact IH |].
  destruct (String.eqb (GetNodeId member) self); simpl; [exact IH |].
  destruct member; simpl; [f_equal |]; exact IH.
Qed.

Lemma rspMemberList_In newNodeId self l p :
  In p (rspMemberList newNodeId self l) <->
    In (ProtoMember p) l
    /\ cherryProto.NodeId p <> newNodeId
    /\ cherryProto.NodeId p <> self.
Proof.
  split.
  - intro H. apply (in_map ProtoMember) in H.
    rewrite rspMemberList_filter in H. apply filter_In in H.
    destruct H as [Hin Hb]. apply andb_prop in Hb. destruct Hb as [Hb _].
    apply andb_prop in Hb. destruct Hb as [H1 H2].
    apply negb_true_iff, String.eqb_neq in H1.
    apply negb_true_iff, String.eqb_neq in H2. auto.
  - intros (Hin & H1 & H2).
    assert (Hf : In (ProtoMember p) (map ProtoMember (rspMemberList newNodeId self l))).
    { rewrite rspMemberList_filter. apply filter_In. split; [exact Hin |].
      simpl. apply String.eqb_neq in H1. apply String.eqb_neq in H2.
      rewrite H1, H2. reflexivity. }
    apply in_map_iff in Hf. destruct Hf as (q & Hq & Hinq).
    inversion Hq; subst. exact Hinq.
Qed.

(** *** The register handler *)

(** C3 (amended). When the register request carries a member that
    deserializes, the master adds the member to its registry, and does so
    first, whatever happens to the reply and to the publish.  When moreover
    the reply list marshals and both the reply and the publish go through,
    it replies with the registry's entries, in order, that are
    [cproto.Member] values and whose node id is neither the new member's nor
    the master's own, and then publishes the request's bytes on the
    addMember subject.  After the add, the registry has an entry for the new
    node id; the member itself when the id was not there before. *)
Theorem registerHandler_replies_then_publishes (bus : Bus) (m : DiscoveryNATS)
    (data : bytes) (newMember : cherryProto.Member) :
  UnmarshalMember data = Ok newMember ->
  fst (registerHandler bus m data)
    = set_memberList (AddMember (ProtoMember newMember) (memberList m)) m
  /\ (exists rest,
        snd (registerHandler bus m data)
        = RegistryAdd (ProtoMember newMember) :: rest)
  /\ (forall rspData,
        MarshalMemberList
          (rspMemberList (cherryProto.NodeId newMember) (appNodeId m)
             (AddMember (ProtoMember newMember) (memberList m))) = Ok rspData ->
        respond bus rspData = None ->
        publish bus (addSubject m) data = None ->
        registerHandler bus m data =
          (set_memberList (AddMember (ProtoMember newMember) (memberList m)) m,
           [RegistryAdd (ProtoMember newMember);
            Responded rspData;
            Published (addSubject m) data]))
  /\ (exists x,
        GetMember (cherryProto.NodeId newMember)
          (AddMember (ProtoMember newMember) (memberList m)) = Some x)
  /\ (GetMember (cherryProto.NodeId newMember) (memberList m) = None ->
      AddMember (ProtoMember newMember) (memberList m)
      = memberList m ++ [ProtoMember newMember])
  /\ map ProtoMember
       (rspMemberList (cherryProto.NodeId newMember) (appNodeId m)
          (AddMember (ProtoMember newMember) (memberList m)))
     = filter (fun x => negb (String.eqb (GetNodeId x) (cherryProto.NodeId newMember))
                        && negb (String.eqb (GetNodeId x) (appNodeId m))
                        && is_proto x)
         (AddMember (ProtoMember newMember) (memberList m))
  /\ (forall p,
        In p (rspMemberList (cherryProto.NodeId newMember) (appNodeId m)
                (AddMember (ProtoMember newMember) (memberList m)))
        <-> In (ProtoMember p) (AddMember (ProtoMember newMember) (memberList m))
            /\ cherryProto.NodeId p <> cherryProto.NodeId newMember
            /\ cherryProto.NodeId p <> appNodeId m).
Proof.
  intros Hun.
  split; [| split; [| split; [| split; [| split; [| split]]]]].
  - unfold registerHandler. rewrite Hun. cbn zeta.
    destruct (MarshalMemberList _); [| reflexivity].
    destruct (respond bus _); [reflexivity |].
    destruct (publish bus _ _); reflexivity.
  - unfold registerHandler. rewrite Hun. cbn zeta.
    destruct (MarshalMemberList _); [| eexists; reflexivity].
    destruct (respond bus _); [eexists; reflexivity |].
    destruct (publish bus _ _); eexists; reflexivity.
  - intros rspData Hmar Hres Hpub.
    unfold registerHandler. rewrite Hun. cbn [memberList appNodeId addSubject set_memberList].
    rewrite Hmar, Hres, Hpub. reflexivity.
  - apply (AddMember_present (ProtoMember newMember)).
  - apply (AddMember_new (ProtoMember newMember)).
  - apply rspMemberList_filter.
  - intro p. apply rspMemberList_In.
Qed.

(** *** The unregister handler *)

(** C7. For a message on the unregister subject that deserializes, the
    handler removes the carried node id from the registry if and only if it
    differs from the local node's id: for another id the registry becomes
    the registry without that id, and for the local id nothing changes.
    Whatever the message, the entries of the local node's own id stay in the
    registry. *)
Theorem unregisterHandler_removes_others_only (m : DiscoveryNATS) (data : bytes) :
  (forall um, UnmarshalMember data = Ok um ->
     (In (RegistryRemove (cherryProto.NodeId um)) (snd (unregisterHandler m data))
      <-> cherryProto.NodeId um <> appNodeId m)
     /\ (cherryProto.NodeId um <> appNodeId m ->
         unregisterHandler m data =
           (set_memberList (RemoveMember (cherryProto.NodeId um) (memberList m)) m,
            [RegistryRemove (cherryProto.NodeId um)])
         /\ GetMember (cherryProto.NodeId um)
              (memberList (fst (unregisterHandler m data))) = None
         /\ forall x, GetNodeId x <> cherryProto.NodeId um ->
               (In x (memberList (fst (unregisterHandler m data)))
                <-> In x (memberList m)))
     /\ (cherryProto.NodeId um = appNodeId m ->
         unregisterHandler m data = (m, [])))
  /\ (forall x, In x (memberList m) -> GetNodeId x = appNodeId m ->
        In x (memberList (fst (unregisterHandler m data)))).
Proof.
  split.
  - intros um Hun. unfold unregisterHandler. rewrite Hun.
    destruct (String.eqb_spec (cherryProto.NodeId um) (appNodeId m)) as [Heq | Hne].
    + split; [| split].
      * simpl. split; [intros [] | intro H; contradiction].
      * intro H; contradiction.
      * reflexivity.
    + split; [| split].
      * simpl. split; [intros _; exact Hne | intros _; left; reflexivity].
      * intros _. cbn [fst memberList set_memberList].
        split; [reflexivity | split].
        -- apply RemoveMember_gone.
        -- intros x Hx. rewrite RemoveMember_In. tauto.
      * intro H; contradiction.
  - intros x Hin Hself. unfold unregisterHandler.
    destruct (UnmarshalMember data) as [um | e]; [| exact Hin].
    destruct (String.eqb_spec (cherryProto.NodeId um) (appNodeId m)) as [Heq | Hne];
      [exact Hin |].
    cbn [fst memberList set_memberList]. apply RemoveMember_In.
    split; [exact Hin | congruence].
Qed.

(** *** Stop *)

Lemma isClient_isMaster (m : DiscoveryNATS) : isClient m = negb (isMaster m).
Proof. reflexivity. Qed.

(** C9 (amended). On a client node (the local node id is not the master's),
    when marshalling the member that carries the node's own id and the
    publish both succeed, [Stop] publishes that member on the unregister
    subject and then closes the bus client.  On the master, [Stop] closes the
    bus client and publishes nothing. *)
Theorem Stop_publishes_then_closes (bus : Bus) (m : DiscoveryNATS) :
  (appNodeId m <> GetNodeId (masterMember m) ->
   forall bytesData,
     MarshalMember
       {| cherryProto.NodeId := appNodeId m; cherryProto.NodeType := "";
          cherryProto.Address := ""; cherryProto.Settings := [] |} = Ok bytesData ->
     publish bus (unregisterSubject m) bytesData = None ->
     Stop bus m =
       [Published (unregisterSubject m) bytesData;
        Debugf "[nodeId = %s] unregister node to [master = %s]";
        ConnClosed])
  /\ (appNodeId m = GetNodeId (masterMember m) -> Stop bus m = [ConnClosed]).
Proof.
  unfold Stop, isClient. split.
  - intros Hne bytesData Hmar Hpub.
    apply String.eqb_neq in Hne. rewrite Hne. cbn [negb].
    rewrite Hmar, Hpub. reflexivity.
  - intro Heq. apply String.eqb_eq in Heq. rewrite Heq. reflexivity.
Qed.

End DiscoveryProperties.

(** ** Discovery on concrete runs *)

Section DiscoveryRuns.
Import cherryDiscovery DiscoveryExamples.

Lemma registerHandler_witness :
  registerHandler (Ser := sampleSerializer) goodBus masterNode
    (list_byte_of_string "g2")
  = (set_memberList
       [ProtoMember (member "m1" "center"); ProtoMember (member "g1" "gate");
        ProtoMember (member "g2" "")] masterNode,
     [RegistryAdd (ProtoMember (member "g2" ""));
      Responded (list_byte_of_string "g1");
      Published "cherry.discovery.m1.addMember" (list_byte_of_string "g2")]).
Proof.
  exact (proj1 (proj2 (proj2
           (registerHandler_replies_then_publishes (Ser := sampleSerializer)
              goodBus masterNode (list_byte_of_string "g2") (member "g2" "")
              eq_refl)))
           (list_byte_of_string "g1") eq_refl eq_refl eq_refl).
Defined.

(** C3, as stated, fails.  A register message that carries no reply subject
    deserializes and the member is added, but the reply fails and nothing is
    published.  And a registry entry that is not a [cproto.Member] is left
    out of the reply although its node id is neither the requester's nor the
    master's. *)
Lemma registerHandler_may_not_publish :
  registerHandler (Ser := sampleSerializer) noReplyBus masterNode
    (list_byte_of_string "g2")
  = (set_memberList
       [ProtoMember (member "m1" "center"); ProtoMember (member "g1" "gate");
        ProtoMember (member "g2" "")] masterNode,
     [RegistryAdd (ProtoMember (member "g2" ""));
      Warnf "respond fail. err = %s"])
  /\ rspMemberList "g2" "m1"
       [ProtoMember (member "m1" "center"); OtherMember "x1" "gate" "";
        ProtoMember (member "g1" "gate"); ProtoMember (member "g2" "")]
     = [member "g1" "gate"].
Proof.
  split; reflexivity.
Qed.

Lemma unregisterHandler_witness :
  unregisterHandler (Ser := sampleSerializer) clientNode (list_byte_of_string "g2")
  = (set_memberList
       [ProtoMember (member "m1" "center"); ProtoMember (member "g1" "gate")]
       clientNode,
     [RegistryRemove "g2"])
  /\ unregisterHandler (Ser := sampleSerializer) clientNode (list_byte_of_string "g1")
     = (clientNode, [])
  /\ In (ProtoMember (member "g1" "gate"))
        (memberList (fst (unregisterHandler (Ser := sampleSerializer) clientNode
                            (list_byte_of_string "g2")))).
Proof.
  destruct (unregisterHandler_removes_others_only (Ser := sampleSerializer)
              clientNode (list_byte_of_string "g2")) as [Hother Hself].
  destruct (unregisterHandler_removes_others_only (Ser := sampleSerializer)
              clientNode (list_byte_of_string "g1")) as [Hown _].
  split; [| split].
  - destruct (Hother (member "g2" "") eq_refl) as (_ & Hrem & _).
    apply Hrem. discriminate.
  - destruct (Hown (member "g1" "") eq_refl) as (_ & _ & Hkeep).
    apply Hkeep. reflexivity.
  - apply Hself; [right; left; reflexivity | reflexivity].
Defined.

Lemma Stop_witness :
  Stop (Ser := sampleSerializer) goodBus clientNode
  = [Published "cherry.discovery.m1.unregister" (list_byte_of_string "g1");
     Debugf "[nodeId = %s] unregister node to [master = %s]";
     ConnClosed]
  /\ Stop (Ser := sampleSerializer) goodBus masterNode = [ConnClosed].
Proof.
  destruct (Stop_publishes_then_closes (Ser := sampleSerializer) goodBus clientNode)
    as [Hclient _].
  destruct (Stop_publishes_then_closes (Ser := sampleSerializer) goodBus masterNode)
    as [_ Hmaster].
  split.
  - apply (Hclient ltac:(discriminate) (list_byte_of_string "g1")); reflexivity.
  - apply Hmaster. reflexivity.
Defined.

(** C9, as stated, fails: on a client whose bus connection is closed the
    publish fails and [Stop] returns at once; nothing is published and the
    bus client is not closed. *)
Lemma Stop_may_not_close :
  Stop (Ser := sampleSerializer) closedBus clientNode
  = [Warnf "publish fail. err = %s"]
  /\ ~ In ConnClosed (Stop (Ser := sampleSerializer) closedBus clientNode).
Proof.
  split; [reflexivity |]. simpl. intuition discriminate.
Qed.

End DiscoveryRuns.

(** * Further properties of the agent *)

Section AgentQueues.
Import cherryAgent.
Context `{App : IApplication}.

(** *** Send, call after call *)

Lemma pending_eta (c : pendingMessage) :
  {| typ := typ c; mid := mid c; route := route c; payload := payload c;
     err := err c |} = c.
Proof. destruct c; reflexivity. Qed.

Lemma sendMany_closed calls : forall (a : Agent) s,
  Session a = Some s ->
  cherrySession.State_of s = cherrySession.Closed ->
  sendMany calls a = a.
Proof.
  induction calls as [| c rest IH]; intros a s Hs Hc; [reflexivity |].
  cbn [sendMany]. unfold Send. rewrite Hs, Hc.
  cbn [cherrySession.State_eqb]. apply (IH a s Hs Hc).
Qed.

Lemma sendMany_open calls : forall (a : Agent) s,
  Session a = Some s ->
  cherrySession.State_of s <> cherrySession.Closed ->
  sendMany calls a =
    set_chSend
      (chSend a ++ firstn (WriteBacklog - List.length (chSend a)) calls) a.
Proof.
  induction calls as [| c rest IH]; intros a s Hs Ho.
  - cbn [sendMany]. rewrite firstn_nil, app_nil_r. destruct a; reflexivity.
  - cbn [sendMany]. unfold Send. rewrite Hs.
    assert (Hc : cherrySession.State_eqb (cherrySession.State_of s)
                   cherrySession.Closed = false)
      by (destruct (cherrySession.State_of s); [reflexivity | reflexivity | congruence]).
    rewrite Hc.
    destruct (Nat.leb_spec WriteBacklog (List.length (chSend a))) as [Hfull | Hroom].
    + rewrite (IH a s Hs Ho).
      replace (WriteBacklog - List.length (chSend a))%nat with 0%nat by lia.
      reflexivity.
    + rewrite pending_eta.
      rewrite (IH (set_chSend (chSend a ++ [c]) a) s Hs Ho).
      cbn [chSend set_chSend]. rewrite length_app. cbn [List.length].
      destruct (WriteBacklog - List.length (chSend a))%nat as [| k] eqn:Hk; [lia |].
      replace (WriteBacklog - (List.length (chSend a) + 1))%nat with k by lia.
      cbn [firstn]. rewrite <- app_assoc. reflexivity.
Qed.

(** X1. Calls of [Send] made one after the other on an agent with a
    session: on a closed session nothing changes; on an open one the
    messages are taken in the order of the calls, at the tail of the queue,
    for as long as there is room, and every later one is dropped.  In
    either case the queue stays within [WriteBacklog] if it was, what it
    held stays at its head, and no other field changes. *)
Theorem sendMany_fills_in_order (calls : list pendingMessage) (a : Agent) s :
  Session a = Some s ->
  (cherrySession.State_of s = cherrySession.Closed -> sendMany calls a = a)
  /\ (cherrySession.State_of s <> cherrySession.Closed ->
      chSend (sendMany calls a) =
        chSend a ++ firstn (WriteBacklog - List.length (chSend a)) calls)
  /\ ((List.length (chSend a) <= WriteBacklog)%nat ->
      (List.length (chSend (sendMany calls a)) <= WriteBacklog)%nat)
  /\ firstn (List.length (chSend a)) (chSend (sendMany calls a)) = chSend a
  /\ chWrite (sendMany calls a) = chWrite a
  /\ lastAt (sendMany calls a) = lastAt a
  /\ Session (sendMany calls a) = Session a
  /\ Options_of (sendMany calls a) = Options_of a.
Proof.
  intro Hs.
  destruct (cherrySession.State_of s) eqn:Hst.
  1, 2:
    (assert (Ho : cherrySession.State_of s <> cherrySession.Closed) by congruence;
     rewrite (sendMany_open calls a s Hs Ho); cbn [chSend chWrite lastAt Session Options_of set_chSend];
     repeat split;
     [ intro; congruence
     | intro Hle; rewrite length_app, length_firstn; lia
     | rewrite firstn_app, Nat.sub_diag, firstn_all; cbn [firstn]; apply app_nil_r ]).
  rewrite (sendMany_closed calls a s Hs Hst).
  repeat split; try congruence. apply firstn_all.
Qed.

(** *** The order of the writes *)

Lemma connWrites_app (t1 t2 : list Event) :
  connWrites (t1 ++ t2) = connWrites t1 ++ connWrites t2.
Proof.
  induction t1 as [| e t1 IH]; [reflexivity |].
  destruct e; simpl; rewrite IH; reflexivity.
Qed.

Lemma trace_after tr (o : Outcome) : trace (after tr o) = tr ++ trace o.
Proof. destruct o; reflexivity. Qed.

(** One iteration of the writer writes nothing or the head of what is
    outstanding, and what is outstanding after it is what was, less what was
    written (unless the iteration is stuck with a frame in hand). *)
Lemma selectCase_outstanding w o src (a : Agent) st :
  selectCase w o src a = Some st ->
  match st with
  | Continue a1 tr | Exit a1 tr => connWrites tr ++ outstanding a1 = outstanding a
  | Stuck a1 tr => connWrites tr = []
  end.
Proof.
  unfold selectCase, outstanding. destruct src.
  - destruct (dieOffered o); [| discriminate].
    intro H; inversion H; subst. unfold observeClosed.
    destruct (Session a); reflexivity.
  - destruct (tick o) as [now |]; [| discriminate].
    intro H; inversion H; subst. unfold tickCase.
    destruct (lastAt a <? _); reflexivity.
  - destruct (chWrite a) as [| b rest] eqn:Hq; [discriminate |].
    intro H; inversion H; subst. unfold writeCase.
    destruct (connWrite w b); reflexivity.
  - destruct (chSend a) as [| data rest] eqn:Hq; [discriminate |].
    intro H; inversion H; subst. unfold sendCase.
    cbn [flat_map]. unfold frameOf.
    destruct (Marshal (payload data)) as [pl | e]; [| reflexivity].
    destruct (MessageEncode _) as [em | e]; [| reflexivity].
    destruct (PacketEncode cherryPacket.Data em) as [p | e]; [| reflexivity].
    cbn [chWrite set_chSend].
    destruct (List.length (chWrite a) <? WriteBacklog)%nat; [| reflexivity].
    cbn [connWrites chWrite chSend set_chWrite set_chSend app].
    rewrite <- app_assoc. reflexivity.
Qed.

Lemma writeDeferred_outstanding w (a : Agent) :
  connWrites (trace (writeDeferred w a)) = []
  /\ match writeDeferred w a with
     | Returned a1 _ | Blocked _ a1 _ => outstanding a1 = outstanding a
     | Panicked _ => True
     end.
Proof.
  unfold writeDeferred, Close.
  destruct (Session a) as [s |]; [| split; [reflexivity | exact I]].
  destruct (cherrySession.State_eqb _ _); split; reflexivity.
Qed.

(** X2. Whatever the [select] takes at each iteration and however the run
    ends, the byte slices the writer hands to [conn.Write] are, in order, a
    head part of what the two queues held at the start: the raw frames in
    queue order, then the frames of the pending messages in queue order
    (a message that cannot be marshalled or encoded has no frame).  Nothing
    is written twice, out of order, or made up.  Unless the run ends stuck
    on a full raw-write queue, what was not written is exactly what the
    queues still hold. *)
Theorem write_keeps_queue_order (w : World) (schedule : list (Offer * Source)) :
  forall a : Agent,
    (exists rest,
        connWrites (trace (write w schedule a)) ++ rest = outstanding a)
    /\ match write w schedule a with
       | Returned a1 tr | Blocked OnSelect a1 tr | Blocked OnChDie a1 tr =>
         connWrites tr ++ outstanding a1 = outstanding a
       | _ => True
       end.
Proof.
  induction schedule as [| [o src] rest IH]; intro a.
  - simpl. split; [exists (outstanding a) |]; reflexivity.
  - simpl. destruct (selectCase w o src a) as [st |] eqn:Hsel; [| apply IH].
    pose proof (selectCase_outstanding w o src a st Hsel) as Hst.
    destruct st as [a1 tr | a1 tr | a1 tr].
    + destruct (IH a1) as [[r Hr] Hend]. split.
      * exists r. rewrite trace_after, connWrites_app, <- app_assoc, Hr. exact Hst.
      * destruct (write w rest a1) as [a2 t2 | on a2 t2 | t2]; simpl; [| | exact I].
        -- rewrite connWrites_app, <- app_assoc, Hend. exact Hst.
        -- destruct on; try exact I;
             rewrite connWrites_app, <- app_assoc, Hend; exact Hst.
    + destruct (writeDeferred_outstanding w a1) as [Hnil Hsame]. split.
      * exists (outstanding a1).
        rewrite trace_after, connWrites_app, Hnil, app_nil_r. exact Hst.
      * destruct (writeDeferred w a1) as [a2 t2 | on a2 t2 | t2]; simpl in *; [| | exact I].
        -- rewrite connWrites_app, Hnil, app_nil_r, Hsame. exact Hst.
        -- destruct on; try exact I;
             rewrite connWrites_app, Hnil, app_nil_r, Hsame; exact Hst.
    + split; [| exact I]. exists (outstanding a). simpl. rewrite Hst. reflexivity.
Qed.

(** *** Raw frames *)

Lemma write_drains_raw w o (q : list bytes) : forall a : Agent,
  chWrite a = q ->
  (forall b, In b q -> is_ok (connWrite w b) = true) ->
  write w (repeat (o, SrcWrite) (List.length q)) a =
    Blocked OnSelect (set_chWrite [] a) (map ConnWrite q).
Proof.
  induction q as [| b rest IH]; intros a Hq Hok.
  - cbn [List.length repeat write map]. rewrite <- Hq. destruct a; reflexivity.
  - cbn [List.length repeat write selectCase]. rewrite Hq. unfold writeCase.
    specialize (Hok b (or_introl eq_refl)) as Hb.
    destruct (connWrite w b) as [n | e]; [| discriminate].
    rewrite (IH (set_chWrite rest a) eq_refl)
      by (intros b' Hin; apply Hok; right; exact Hin).
    reflexivity.
Qed.

(** No case of the [select] closes a queue. *)
Lemma selectCase_closes_nothing w o src (a : Agent) st :
  selectCase w o src a = Some st ->
  match st with
  | Continue _ tr | Exit _ tr | Stuck _ tr => ~ In CloseChWrite tr
  end.
Proof.
  unfold selectCase. destruct src.
  - destruct (dieOffered o); [| discriminate].
    intro H; inversion H; subst. simpl. intuition discriminate.
  - destruct (tick o) as [now |]; [| discriminate].
    intro H; inversion H; subst. unfold tickCase.
    destruct (lastAt a <? _); simpl; intuition discriminate.
  - destruct (chWrite a) as [| b rest]; [discriminate |].
    intro H; inversion H; subst. unfold writeCase.
    destruct (connWrite w b); simpl; intuition discriminate.
  - destruct (chSend a) as [| data rest]; [discriminate |].
    intro H; inversion H; subst. unfold sendCase.
    destruct (Marshal (payload data)); [| simpl; intuition discriminate].
    destruct (MessageEncode _); [| simpl; intuition discriminate].
    destruct (PacketEncode cherryPacket.Data _); [| simpl; intuition discriminate].
    cbn [chWrite set_chSend].
    destruct (List.length (chWrite a) <? WriteBacklog)%nat; simpl; intuition discriminate.
Qed.

(** The raw-write queue is closed only by a writer that returns, and by
    then the session is closed. *)
Lemma write_closes_queue_on_return w schedule : forall a : Agent,
  In CloseChWrite (trace (write w schedule a)) ->
  exists a1 tr s,
    write w schedule a = Returned a1 tr
    /\ Session a1 = Some s
    /\ cherrySession.State_of s = cherrySession.Closed.
Proof.
  induction schedule as [| [o src] rest IH]; intros a Hin; [destruct Hin |].
  cbn [write] in *.
  destruct (selectCase w o src a) as [st |] eqn:Hsel; [| apply IH; exact Hin].
  pose proof (selectCase_closes_nothing w o src a st Hsel) as Hno.
  destruct st as [a1 tr | a1 tr | a1 tr].
  - rewrite trace_after in Hin. apply in_app_or in Hin.
    destruct Hin as [Hin | Hin]; [contradiction |].
    destruct (IH a1 Hin) as (a2 & t2 & s & Hrun & Hs & Hc).
    rewrite Hrun. exists a2, (tr ++ t2), s. auto.
  - rewrite trace_after in Hin. apply in_app_or in Hin.
    destruct Hin as [Hin | Hin]; [contradiction |].
    unfold writeDeferred, Close in *.
    destruct (Session a1) as [s |] eqn:Hs; [| destruct Hin].
    destruct (cherrySession.State_eqb (cherrySession.State_of s) cherrySession.Closed) eqn:Hc.
    + eexists a1, _, s. split; [reflexivity | split; [exact Hs |]].
      destruct (cherrySession.State_of s); [discriminate | discriminate | reflexivity].
    + simpl in Hin. intuition discriminate.
  - contradiction.
Qed.

(** X3. [SendRaw] takes no notice of the session.  While [chWrite] is open:
    on a raw-write queue with room it appends the slice at the tail and
    returns, and if the writer then takes the raw-write case once per queued
    frame and every write succeeds, the frames go to the connection in queue
    order, the new one last, and the queue is left empty; on a full queue
    [SendRaw] does not drop the slice: the caller waits.  Once [chWrite] has
    been closed, [SendRaw] panics, whatever the queue holds; and the writer
    closes [chWrite] only when it returns, the session being closed by
    then. *)
Theorem SendRaw_then_writer (w : World) (o : Offer) (b : bytes) (a : Agent) :
  ((List.length (chWrite a) < WriteBacklog)%nat ->
   (forall b', In b' (chWrite a ++ [b]) -> is_ok (connWrite w b') = true) ->
   exists a1,
     SendRaw false b a = Returned a1 []
     /\ chWrite a1 = chWrite a ++ [b]
     /\ write w (repeat (o, SrcWrite) (S (List.length (chWrite a)))) a1 =
          Blocked OnSelect (set_chWrite [] a)
            (map ConnWrite (chWrite a ++ [b])))
  /\ ((WriteBacklog <= List.length (chWrite a))%nat ->
      SendRaw false b a = Blocked OnChWrite a [])
  /\ SendRaw true b a = Panicked []
  /\ (forall schedule a0,
        In CloseChWrite (trace (write w schedule a0)) ->
        exists a1 tr s,
          write w schedule a0 = Returned a1 tr
          /\ Session a1 = Some s
          /\ cherrySession.State_of s = cherrySession.Closed).
Proof.
  unfold SendRaw. split; [| split; [| split]].
  - intros Hroom Hok. apply Nat.ltb_lt in Hroom. rewrite Hroom.
    exists (set_chWrite (chWrite a ++ [b]) a).
    split; [reflexivity | split; [reflexivity |]].
    replace (S (List.length (chWrite a))) with (List.length (chWrite a ++ [b]))
      by (rewrite length_app; simpl; lia).
    rewrite (write_drains_raw w o (chWrite a ++ [b])
               (set_chWrite (chWrite a ++ [b]) a) eq_refl Hok).
    reflexivity.
  - intro Hfull. apply Nat.ltb_ge in Hfull. rewrite Hfull. reflexivity.
  - reflexivity.
  - intros schedule a0. apply write_closes_queue_on_return.
Qed.

(** *** The writer leaving on its own *)

Lemma selectCase_session w o src (a : Agent) st :
  src <> SrcDie ->
  selectCase w o src a = Some st ->
  match st with
  | Continue a1 tr | Exit a1 tr | Stuck a1 tr =>
    Session a1 = Session a /\ Forall (fun e => is_teardown e = false) tr
  end.
Proof.
  intros Hsrc. unfold selectCase. destruct src; [congruence | | |].
  - destruct (tick o) as [now |]; [| discriminate].
    intro H; inversion H; subst. unfold tickCase.
    destruct (lastAt a <? _); split; repeat constructor.
  - destruct (chWrite a) as [| b rest]; [discriminate |].
    intro H; inversion H; subst. unfold writeCase.
    destruct (connWrite w b); split; repeat constructor.
  - destruct (chSend a) as [| data rest]; [discriminate |].
    intro H; inversion H; subst. unfold sendCase.
    destruct (Marshal (payload data)); [| split; repeat constructor].
    destruct (MessageEncode _); [| split; repeat constructor].
    destruct (PacketEncode cherryPacket.Data _); [| split; repeat constructor].
    cbn [chWrite set_chSend].
    destruct (List.length (chWrite a) <? WriteBacklog)%nat; split; repeat constructor.
Qed.

(** X4. On an agent whose session is not closed, whenever the writer leaves
    its loop by a case other than the death signal (a heartbeat timeout, a
    failed write, a payload that cannot be marshalled), [write] does not
    return: the deferred [Close] sets the session to [Closed], runs the
    hooks and then waits on [chDie].  The connection is not closed, no death
    signal is delivered and the two queues are not closed; what is left of
    the schedule plays no part. *)
Theorem write_leaving_by_itself_blocks (w : World) (o : Offer) (src : Source)
    (rest : list (Offer * Source)) (a a1 : Agent) (tr : list Event) s :
  Session a = Some s ->
  cherrySession.State_of s <> cherrySession.Closed ->
  src <> SrcDie ->
  selectCase w o src a = Some (Exit a1 tr) ->
  write w ((o, src) :: rest) a =
    Blocked OnChDie
      (set_Session (cherrySession.SetState cherrySession.Closed s) a1)
      (tr ++ [SessionDebugf "close session. [sid = %s]"; TickerStop;
              OnCloseProcess])
  /\ ~ In ConnClose (trace (write w ((o, src) :: rest) a))
  /\ ~ In ChDieSent (trace (write w ((o, src) :: rest) a))
  /\ ~ In CloseChSend (trace (write w ((o, src) :: rest) a))
  /\ ~ In CloseChWrite (trace (write w ((o, src) :: rest) a)).
Proof.
  intros Hs Hopen Hsrc Hsel.
  destruct (selectCase_session w o src a _ Hsrc Hsel) as [Hsess Hquiet].
  assert (Hrun : write w ((o, src) :: rest) a =
            Blocked OnChDie
              (set_Session (cherrySession.SetState cherrySession.Closed s) a1)
              (tr ++ [SessionDebugf "close session. [sid = %s]"; TickerStop;
                      OnCloseProcess])).
  { cbn [write]. rewrite Hsel. unfold writeDeferred.
    rewrite Hsess, Hs.
    rewrite (Close_open_not_received w a1 s (eq_trans Hsess Hs) Hopen).
    reflexivity. }
  split; [exact Hrun |]. rewrite Hrun. cbn [trace].
  rewrite Forall_forall in Hquiet.
  repeat split; intro Hin; apply in_app_or in Hin;
    (destruct Hin as [Hin | Hin];
     [ try (specialize (Hquiet _ Hin); discriminate)
     | simpl in Hin; intuition discriminate ]).
  - clear - Hsel Hsrc Hin. unfold selectCase in Hsel.
    destruct src; [congruence | | |].
    + destruct (tick o); [| discriminate]. unfold tickCase in Hsel.
      destruct (lastAt a <? _); inversion Hsel; subst; simpl in Hin; intuition discriminate.
    + destruct (chWrite a); [discriminate |]. unfold writeCase in Hsel.
      destruct (connWrite w b); inversion Hsel; subst; simpl in Hin; intuition discriminate.
    + destruct (chSend a); [discriminate |]. unfold sendCase in Hsel.
      destruct (Marshal _); [| inversion Hsel; subst; simpl in Hin; intuition discriminate].
      destruct (MessageEncode _); [| discriminate].
      destruct (PacketEncode _ _); [| discriminate].
      destruct (_ <? _)%nat; discriminate.
  - clear - Hsel Hsrc Hin. unfold selectCase in Hsel.
    destruct src; [congruence | | |].
    + destruct (tick o); [| discriminate]. unfold tickCase in Hsel.
      destruct (lastAt a <? _); inversion Hsel; subst; simpl in Hin; intuition discriminate.
    + destruct (chWrite a); [discriminate |]. unfold writeCase in Hsel.
      destruct (connWrite w b); inversion Hsel; subst; simpl in Hin; intuition discriminate.
    + destruct (chSend a); [discriminate |]. unfold sendCase in Hsel.
      destruct (Marshal _); [| inversion Hsel; subst; simpl in Hin; intuition discriminate].
      destruct (MessageEncode _); [| discriminate].
      destruct (PacketEncode _ _); [| discriminate].
      destruct (_ <? _)%nat; discriminate.
Qed.

(** *** What the reader leaves alone *)

Lemma processPackets_same_queues clock packets : forall i (a : Agent),
  same_queues a (fst (processPackets clock i packets a))
  /\ connWrites (snd (processPackets clock i packets a)) = [].
Proof.
  induction packets as [| packet rest IH]; intros i a.
  - split; [repeat split | reflexivity].
  - cbn [processPackets].
    destruct (processPacket (clock i) packet a) as [a1 tr1] eqn:H1.
    destruct (IH (S i) a1) as [(Hs & Hw & Ho) Hc].
    destruct (processPackets clock (S i) rest a1) as [a2 tr2].
    cbn [fst snd] in *.
    assert (H1' : same_queues a a1 /\ connWrites tr1 = []).
    { unfold processPacket in H1.
      destruct (Commands (Options_of a) (cherryPacket.Type_of packet)).
      - destruct (Session a); inversion H1; subst; repeat split.
      - inversion H1; subst; repeat split. }
    destruct H1' as [(Hs1 & Hw1 & Ho1) Hc1].
    split; [repeat split; congruence |].
    rewrite connWrites_app, Hc1, Hc. reflexivity.
Qed.

(** Whatever the connection answers and however the reader ends (waiting
    for the next frame, returned from [Close], or waiting inside [Close]),
    the reader's own statements write nothing on the connection and leave
    the send queue, the raw-write queue, the heartbeat and the command table
    as they were; what a command does beyond the session is behind
    [CommandDo]. *)
Theorem read_leaves_queues_alone (w : World) (conn : list ReadResult) :
  forall a : Agent,
    connWrites (trace (read w conn a)) = []
    /\ match read w conn a with
       | Returned a1 _ | Blocked _ a1 _ => same_queues a a1
       | Panicked _ => True
       end.
Proof.
  induction conn as [| r rest IH]; intro a.
  - split; [reflexivity | repeat split].
  - destruct r as [e | msg clock]; cbn [read].
    + unfold Close. destruct (Session a) as [s |]; [| split; [reflexivity | exact I]].
      destruct (cherrySession.State_eqb _ _); [split; [reflexivity | repeat split] |].
      destruct (writerSelecting w); [| split; [reflexivity | repeat split]].
      split; [| repeat split].
      cbn [trace]. destruct (connClose w); reflexivity.
    + destruct (PacketDecode msg) as [packets | e].
      * destruct (processPackets_same_queues clock packets 0%nat a) as [(Hs & Hw & Ho) Hc].
        destruct (processPackets clock 0 packets a) as [a1 tr1]. cbn [fst snd] in *.
        destruct (IH a1) as [Hc2 Hq]. split.
        -- rewrite trace_after, connWrites_app, Hc, Hc2. reflexivity.
        -- destruct (read w rest a1) as [a2 t2 | on a2 t2 | t2]; cbn [after];
             [| | exact I]; destruct Hq as (H1 & H2 & H3); repeat split; congruence.
      * destruct (IH a) as [Hc2 Hq]. split.
        -- rewrite trace_after, connWrites_app, Hc2. reflexivity.
        -- destruct (read w rest a) as [a2 t2 | on a2 t2 | t2]; exact Hq.
Qed.

(** *** Which packets refresh the stamp *)

Lemma processPackets_unknown clock packets : forall i (a : Agent),
  Forall (fun p => command_known a p = false) packets ->
  processPackets clock i packets a =
    (a, map (fun _ => SessionDebugf "packet[%s] type not found.") packets).
Proof.
  induction packets as [| packet rest IH]; intros i a Hall; [reflexivity |].
  inversion Hall as [| p l Hp Hrest]; subst.
  cbn [processPackets]. unfold processPacket, command_known in *.
  destruct (Commands (Options_of a) (cherryPacket.Type_of packet)); [discriminate |].
  rewrite (IH (S i) a Hrest). reflexivity.
Qed.

Lemma processPackets_app clock p1 p2 : forall i (a : Agent),
  processPackets clock i (p1 ++ p2) a =
    (fst (processPackets clock (i + List.length p1) p2
            (fst (processPackets clock i p1 a))),
     snd (processPackets clock i p1 a) ++
     snd (processPackets clock (i + List.length p1) p2
            (fst (processPackets clock i p1 a)))).
Proof.
  induction p1 as [| p rest IH]; intros i a.
  - cbn [app processPackets List.length fst snd]. rewrite Nat.add_0_r.
    destruct (processPackets clock i p2 a); reflexivity.
  - cbn [app processPackets List.length].
    destruct (processPacket (clock i) p a) as [a1 tr1].
    rewrite (IH (S i) a1).
    replace (i + S (List.length rest))%nat with (S i + List.length rest)%nat by lia.
    destruct (processPackets clock (S i) rest a1) as [a2 tr2]. cbn [fst snd].
    rewrite app_assoc. reflexivity.
Qed.

Lemma processPackets_options clock packets : forall i (a : Agent),
  Options_of (fst (processPackets clock i packets a)) = Options_of a.
Proof.
  intros i a. destruct (processPackets_same_queues clock packets i a) as [(_ & _ & H) _].
  exact H.
Qed.

Lemma processPackets_session clock packets : forall i (a : Agent) s,
  Session a = Some s ->
  exists s1, Session (fst (processPackets clock i packets a)) = Some s1.
Proof.
  induction packets as [| p rest IH]; intros i a s Hs; [exists s; exact Hs |].
  cbn [processPackets].
  destruct (processPacket (clock i) p a) as [a2 tr2] eqn:H2.
  assert (Hs2 : exists s2, Session a2 = Some s2).
  { unfold processPacket in H2.
    destruct (Commands (Options_of a) (cherryPacket.Type_of p)).
    - rewrite Hs in H2. inversion H2; subst. eexists; reflexivity.
    - inversion H2; subst. exists s; exact Hs. }
  destruct Hs2 as [s2 Hs2]. specialize (IH (S i) a2 s2 Hs2).
  destruct (processPackets clock (S i) rest a2). exact IH.
Qed.

(** X5. Only a packet whose type has a command refreshes the heartbeat
    stamp.  A frame none of whose packets has a command leaves the agent
    exactly as it was, stamp included, with one debug line per packet; and,
    the session being set, after a frame whose last packet has a command
    (the commands having returned) the stamp is the Unix second of the clock
    reading made for that last packet. *)
Theorem processPackets_stamp (clock : nat -> time.Time)
    (packets : list cherryPacket.Packet) (a : Agent) :
  (Forall (fun p => command_known a p = false) packets ->
   processPackets clock 0 packets a =
     (a, map (fun _ => SessionDebugf "packet[%s] type not found.") packets))
  /\ (forall front last s,
        packets = front ++ [last] ->
        command_known a last = true ->
        Session a = Some s ->
        lastAt (fst (processPackets clock 0 packets a))
        = time.Unix (clock (List.length front))).
Proof.
  split; [apply processPackets_unknown |].
  intros front last s Hp Hk Hs. subst packets.
  rewrite processPackets_app. cbn [fst Nat.add].
  set (a1 := fst (processPackets clock 0 front a)).
  assert (Ho : Options_of a1 = Options_of a) by apply processPackets_options.
  destruct (processPackets_session clock front 0%nat a s Hs) as [s1 Hs1].
  fold a1 in Hs1.
  cbn [processPackets]. unfold processPacket, command_known in *.
  rewrite Ho.
  destruct (Commands (Options_of a) (cherryPacket.Type_of last)); [| discriminate].
  rewrite Hs1. reflexivity.
Qed.

End AgentQueues.

(** * Properties of the codes and of the center calls *)

Section Codes.
Import cherryCode.

(** X6. Every code is either ok or a failure, never both; [OK] (zero) is
    the only ok code; each named error code is a failure, and the named
    codes are pairwise different. *)
Theorem IsOK_IsFail_partition (code : Z) :
  IsFail code = negb (IsOK code)
  /\ (IsOK code = true <-> code = OK)
  /\ (In code errors -> IsFail code = true)
  /\ NoDup (OK :: errors).
Proof.
  unfold IsFail, IsOK. split; [reflexivity | split; [apply Z.eqb_eq | split]].
  - intro Hin. apply negb_true_iff, Z.eqb_neq.
    unfold errors in Hin. simpl in Hin. unfold OK.
    repeat (destruct Hin as [Hin | Hin]; [subst code; discriminate |]).
    contradiction.
  - unfold errors, OK.
    repeat (constructor; [simpl; intuition discriminate |]). constructor.
Qed.

End Codes.

Section CenterProperties.
Import cherryDiscovery rpcCenter.
Context `{app : Facade}.

(** X7. [Ping] answers true exactly when a center member is listed, the
    first one listed has a non-empty node id, and the call of [ping] on that
    node's [.ops] actor succeeds with the value true.  It makes that one
    call and no other; with no center listed (or an empty id) it makes no
    call at all. *)
Theorem Ping_true_iff :
  (fst Ping = true <->
     exists first rest,
       ListByType centerType = first :: rest
       /\ GetNodeId first <> ""
       /\ CallWaitBool (mkCall "" (GetNodeId first ++ ".ops")%string "ping" Nil)
          = Ok true)
  /\ (GetCenterNodeID = "" -> Ping = (false, []))
  /\ (GetCenterNodeID <> "" ->
      calls (snd Ping) = [mkCall "" (GetCenterNodeID ++ ".ops")%string "ping" Nil]).
Proof.
  unfold Ping, GetCenterNodeID.
  split; [| split].
  - destruct (ListByType centerType) as [| first rest].
    + simpl. split; [discriminate | intros (f & r & H & _); discriminate].
    + destruct (String.eqb_spec (GetNodeId first) "") as [He | Hne].
      * simpl. split; [discriminate |].
        intros (f & r & H & Hn & _). inversion H; subst. contradiction.
      * unfold opsActor, ping.
        destruct (CallWaitBool _) as [v | e] eqn:Hc; simpl.
        -- split.
           ++ intro Hv; subst v. exists first, rest. auto.
           ++ intros (f & r & H & _ & Hcall). inversion H; subst.
              rewrite Hcall in Hc. inversion Hc; reflexivity.
        -- split; [discriminate |].
           intros (f & r & H & _ & Hcall). inversion H; subst.
           rewrite Hcall in Hc. discriminate.
  - intros ->. reflexivity.
  - intro Hne. apply String.eqb_neq in Hne. rewrite Hne.
    destruct (CallWaitBool _); reflexivity.
Qed.

(** X8. The three account functions make exactly one call each, whatever
    the registry: on the actor [.account] of the first center listed, and,
    when no center is listed, on the path [.account] with an empty node id
    (unlike [Ping], they do not stop).  A failed call gives the fallback
    (the register error code, 0, or uid 0 with the get-fail code); a
    successful one passes the value through, [GetUID] together with [OK]. *)
Theorem account_calls (accountName password ip openId : string) (sdkId pid : Z) :
  calls (snd (RegisterDevAccount accountName password ip))
    = [mkCall "" (GetCenterNodeID ++ ".account")%string "registerDevAccount"
         (DevRegister accountName password ip)]
  /\ calls (snd (GetDevAccount accountName password))
     = [mkCall "" (GetCenterNodeID ++ ".account")%string "getDevAccount"
          (DevRegister accountName password "")]
  /\ calls (snd (GetUID sdkId pid openId))
     = [mkCall "" (GetCenterNodeID ++ ".account")%string "getUID"
          (User sdkId pid openId)]
  /\ (ListByType centerType = [] -> GetTargetPath accountActor = ".account")
  /\ fst (RegisterDevAccount accountName password ip)
     = match CallWaitInt32
               (mkCall "" (GetCenterNodeID ++ ".account")%string
                  "registerDevAccount" (DevRegister accountName password ip)) with
       | Ok value => value
       | Err _ => AccountRegisterError
       end
  /\ fst (GetDevAccount accountName password)
     = match CallWaitInt64
               (mkCall "" (GetCenterNodeID ++ ".account")%string
                  "getDevAccount" (DevRegister accountName password "")) with
       | Ok value => value
       | Err _ => 0
       end
  /\ fst (GetUID sdkId pid openId)
     = match CallWaitInt64
               (mkCall "" (GetCenterNodeID ++ ".account")%string
                  "getUID" (User sdkId pid openId)) with
       | Ok value => (value, OK)
       | Err _ => (0, AccountGetFail)
       end.
Proof.
  unfold RegisterDevAccount, GetDevAccount, GetUID, GetTargetPath,
    accountActor, registerDevAccount, getDevAccount, getUID.
  repeat split.
  - destruct (CallWaitInt32 _); reflexivity.
  - destruct (CallWaitInt64 _); reflexivity.
  - destruct (CallWaitInt64 _); reflexivity.
  - intro H. unfold GetCenterNodeID. rewrite H. reflexivity.
  - destruct (CallWaitInt32 _); reflexivity.
  - destruct (CallWaitInt64 _); reflexivity.
  - destruct (CallWaitInt64 _); reflexivity.
Qed.

End CenterProperties.

(** * Further properties of discovery *)

Section DiscoveryInvariants.
Import cherryDiscovery cherryDiscoveryClient.
Context `{Ser : ISerializer}.

(** *** Registry facts *)

Lemma GetMember_present nodeId l :
  GetMember nodeId l <> None <-> exists x, In x l /\ GetNodeId x = nodeId.
Proof.
  split.
  - destruct (GetMember nodeId l) as [x |] eqn:Hg; [| congruence].
    intros _. exists x. apply GetMember_Some. exact Hg.
  - intros (x & Hin & Hid) Hnone.
    apply (proj1 (GetMember_None nodeId l) Hnone x Hin Hid).
Qed.

Lemma AddMember_In member l x : In x l -> In x (AddMember member l).
Proof.
  unfold AddMember. destruct (GetMember _ l); [auto |].
  intro H. apply in_or_app. left. exact H.
Qed.

Lemma AddMember_other member l nodeId :
  GetNodeId member <> nodeId ->
  GetMember nodeId (AddMember member l) = GetMember nodeId l.
Proof.
  intro Hne. unfold AddMember. destruct (GetMember (GetNodeId member) l); [reflexivity |].
  unfold GetMember. induction l as [| y l IH]; simpl.
  - apply String.eqb_neq in Hne. rewrite Hne. reflexivity.
  - destruct (String.eqb (GetNodeId y) nodeId); [reflexivity | exact IH].
Qed.

Lemma NoDup_map_filter {A B : Type} (f : A -> B) (keep : A -> bool) (l : list A) :
  NoDup (map f l) -> NoDup (map f (filter keep l)).
Proof.
  induction l as [| x l IH]; simpl; intro H; [constructor |].
  inversion H as [| y ys Hnotin Hnodup]; subst.
  destruct (keep x); simpl; [constructor |]; auto.
  intro Hin. apply Hnotin. apply in_map_iff in Hin.
  destruct Hin as (z & Hz & Hinz). apply filter_In in Hinz.
  apply in_map_iff. exists z. tauto.
Qed.

Lemma AddMember_NoDup member l :
  NoDup (map GetNodeId l) -> NoDup (map GetNodeId (AddMember member l)).
Proof.
  intro H. unfold AddMember.
  destruct (GetMember (GetNodeId member) l) eqn:Hg; [exact H |].
  rewrite map_app. simpl.
  apply NoDup_app; [exact H | repeat constructor; simpl; tauto |].
  intros id Hin1 Hin2. simpl in Hin2. destruct Hin2 as [Heq | []]. subst id.
  apply in_map_iff in Hin1. destruct Hin1 as (x & Hx & Hin).
  apply (proj1 (GetMember_None _ _) Hg x Hin Hx).
Qed.

(** *** One delivery *)

Lemma deliver_fields bus (m : DiscoveryNATS) msg :
  appNodeId (fst (deliver bus m msg)) = appNodeId m
  /\ masterMember (fst (deliver bus m msg)) = masterMember m
  /\ registerSubject (fst (deliver bus m msg)) = registerSubject m
  /\ unregisterSubject (fst (deliver bus m msg)) = unregisterSubject m
  /\ addSubject (fst (deliver bus m msg)) = addSubject m.
Proof.
  destruct msg as [data | data | data]; unfold deliver.
  - destruct (isMaster m); [| repeat split]. unfold registerHandler.
    destruct (UnmarshalMember data); [| repeat split].
    cbn zeta. destruct (MarshalMemberList _); [| repeat split].
    destruct (respond bus _); [repeat split |].
    destruct (publish bus _ _); repeat split.
  - unfold unregisterHandler. destruct (UnmarshalMember data); [| repeat split].
    destruct (String.eqb _ _); repeat split.
  - destruct (isClient m); [| repeat split]. unfold addMemberHandler.
    destruct (UnmarshalMember data); [| repeat split].
    destruct (GetMember _ _); repeat split.
Qed.

(** What a delivery does to the registry: nothing, an add, or the removal
    of a node id other than the node's own. *)
Lemma deliver_registry bus (m : DiscoveryNATS) msg :
  memberList (fst (deliver bus m msg)) = memberList m
  \/ (exists member,
        memberList (fst (deliver bus m msg)) = AddMember member (memberList m))
  \/ (exists nodeId,
        nodeId <> appNodeId m
        /\ memberList (fst (deliver bus m msg)) = RemoveMember nodeId (memberList m)).
Proof.
  destruct msg as [data | data | data]; unfold deliver.
  - destruct (isMaster m); [| left; reflexivity]. unfold registerHandler.
    destruct (UnmarshalMember data) as [nm |]; [| left; reflexivity].
    right; left. exists (ProtoMember nm). cbn zeta.
    destruct (MarshalMemberList _); [| reflexivity].
    destruct (respond bus _); [reflexivity |].
    destruct (publish bus _ _); reflexivity.
  - unfold unregisterHandler.
    destruct (UnmarshalMember data) as [um |]; [| left; reflexivity].
    destruct (String.eqb_spec (cherryProto.NodeId um) (appNodeId m)) as [He | Hne];
      [left; reflexivity |].
    right; right. exists (cherryProto.NodeId um). split; [exact Hne | reflexivity].
  - destruct (isClient m); [| left; reflexivity]. unfold addMemberHandler.
    destruct (UnmarshalMember data) as [am |]; [| left; reflexivity].
    destruct (GetMember _ _); [left; reflexivity |].
    right; left. exists (ProtoMember am). reflexivity.
Qed.

(** X9. Through any sequence of register, unregister and addMember
    messages a node receives, its registry never holds two members with the
    same node id, if it did not at the start. *)
Theorem registry_ids_stay_unique (bus : Bus) (msgs : list Incoming) :
  forall m : DiscoveryNATS,
    NoDup (map GetNodeId (memberList m)) ->
    NoDup (map GetNodeId (memberList (deliverAll bus m msgs))).
Proof.
  induction msgs as [| msg rest IH]; intros m H; [exact H |].
  cbn [deliverAll]. apply IH.
  destruct (deliver_registry bus m msg) as [He | [[x He] | [id [_ He]]]]; rewrite He.
  - exact H.
  - apply AddMember_NoDup. exact H.
  - unfold RemoveMember. apply NoDup_map_filter. exact H.
Qed.

(** X10. No sequence of messages makes a node drop its own entry or changes
    who it is: after any register, unregister and addMember messages the
    node id, the master and the three subjects are what they were, and
    every member carrying the node's own id that was in the registry is
    still in it.  In particular the master, which [serverInit] enters in its
    own registry, stays there whatever it receives. *)
Theorem own_entry_survives (bus : Bus) (msgs : list Incoming) :
  forall m : DiscoveryNATS,
    (appNodeId (deliverAll bus m msgs) = appNodeId m
     /\ masterMember (deliverAll bus m msgs) = masterMember m
     /\ registerSubject (deliverAll bus m msgs) = registerSubject m
     /\ unregisterSubject (deliverAll bus m msgs) = unregisterSubject m
     /\ addSubject (deliverAll bus m msgs) = addSubject m)
    /\ (forall x, In x (memberList m) -> GetNodeId x = appNodeId m ->
          In x (memberList (deliverAll bus m msgs)))
    /\ (isMaster m = true ->
        GetMember (appNodeId m)
          (memberList (deliverAll bus (fst (serverInit m)) msgs)) <> None).
Proof.
  assert (Hmain : forall m : DiscoveryNATS,
    (appNodeId (deliverAll bus m msgs) = appNodeId m
     /\ masterMember (deliverAll bus m msgs) = masterMember m
     /\ registerSubject (deliverAll bus m msgs) = registerSubject m
     /\ unregisterSubject (deliverAll bus m msgs) = unregisterSubject m
     /\ addSubject (deliverAll bus m msgs) = addSubject m)
    /\ (forall x, In x (memberList m) -> GetNodeId x = appNodeId m ->
          In x (memberList (deliverAll bus m msgs)))).
  { induction msgs as [| msg rest IH]; intro m; [repeat split; auto |].
    cbn [deliverAll].
    destruct (deliver_fields bus m msg) as (F1 & F2 & F3 & F4 & F5).
    destruct (IH (fst (deliver bus m msg))) as [(G1 & G2 & G3 & G4 & G5) Hkeep].
    split; [repeat split; congruence |].
    intros x Hin Hid. apply Hkeep; [| congruence].
    destruct (deliver_registry bus m msg) as [He | [[y He] | [id [Hne He]]]]; rewrite He.
    - exact Hin.
    - apply AddMember_In. exact Hin.
    - apply RemoveMember_In. split; [exact Hin | congruence]. }
  intro m. destruct (Hmain m) as [Hf Hk]. split; [exact Hf | split; [exact Hk |]].
  intro Hmaster. unfold serverInit. rewrite Hmaster. cbn [negb fst].
  unfold isMaster in Hmaster. apply String.eqb_eq in Hmaster.
  set (m1 := set_memberList (AddMember (masterMember m) (memberList m)) m).
  destruct (AddMember_present (masterMember m) (memberList m)) as [x Hx].
  apply GetMember_Some in Hx. destruct Hx as [Hin Hid].
  apply GetMember_present. exists x. split; [| congruence].
  destruct (Hmain m1) as [_ Hk1]. apply Hk1; [exact Hin |].
  subst m1. cbn [appNodeId set_memberList]. congruence.
Qed.

(** X11. The addMember handler is idempotent: a message delivered a second
    time changes nothing and adds nothing, whether the first delivery added
    the member, found it already there, or could not read the message. *)
Theorem addMemberHandler_idempotent (m : DiscoveryNATS) (data : bytes) :
  fst (addMemberHandler (fst (addMemberHandler m data)) data)
    = fst (addMemberHandler m data)
  /\ forall member,
       ~ In (RegistryAdd member)
            (snd (addMemberHandler (fst (addMemberHandler m data)) data)).
Proof.
  unfold addMemberHandler.
  destruct (UnmarshalMember data) as [am | e] eqn:Hun.
  - destruct (GetMember (cherryProto.NodeId am) (memberList m)) as [x |] eqn:Hg;
      cbn [fst snd].
    + rewrite Hg. split; [reflexivity | intros member []].
    + cbn [memberList set_memberList].
      destruct (AddMember_present (ProtoMember am) (memberList m)) as [y Hy].
      cbn [GetNodeId] in Hy. rewrite Hy.
      split; [reflexivity | intros member []].
  - cbn [fst snd]. split; [reflexivity |].
    intros member [H | []]. discriminate.
Qed.

(** *** The registration loop *)

Section Registration.
Variable UnmarshalMemberList : bytes -> result (list cherryProto.Member).

Lemma sleeps_app (t1 t2 : list ClientEvent) :
  sleeps (t1 ++ t2) = (sleeps t1 + sleeps t2)%nat.
Proof.
  induction t1 as [| e t1 IH]; [reflexivity |].
  destruct e; simpl; rewrite IH; reflexivity.
Qed.

Lemma sleeps_adds (members : list cherryProto.Member) :
  sleeps (map (fun p => Ev (RegistryAdd (ProtoMember p))) members) = 0%nat.
Proof. induction members; [reflexivity | exact IHmembers]. Qed.

Lemma before_nil (o : ClientOutcome) : before [] o = o.
Proof. destruct o; reflexivity. Qed.

Lemma before_before (t1 t2 : list ClientEvent) (o : ClientOutcome) :
  before t1 (before t2 o) = before (t1 ++ t2) o.
Proof. destruct o; simpl; rewrite app_assoc; reflexivity. Qed.

Lemma registerLoop_failures bytesData failures (m : DiscoveryNATS) :
  Forall (fun r => attempt_fails UnmarshalMemberList r = true) failures ->
  forall rest,
  exists tr,
    sleeps tr = List.length failures
    /\ registerLoop UnmarshalMemberList bytesData (failures ++ rest) m
       = before tr (registerLoop UnmarshalMemberList bytesData rest m).
Proof.
  induction failures as [| r failures IH]; intros Hall rest.
  - exists []. split; [reflexivity |]. cbn [app]. symmetry. apply before_nil.
  - inversion Hall as [| r' l' Hr Hrest]; subst.
    destruct (IH Hrest rest) as (tr & Hsl & Hrun).
    destruct r as [rspData | e]; cbn [app registerLoop].
    + unfold attempt_fails in Hr.
      destruct (UnmarshalMemberList rspData); [discriminate |].
      rewrite Hrun, before_before. eexists. split; [| reflexivity].
      rewrite sleeps_app. simpl. rewrite Hsl. reflexivity.
    + rewrite Hrun, before_before. eexists. split; [| reflexivity].
      rewrite sleeps_app. simpl. rewrite Hsl. reflexivity.
Qed.

(** X12. The registration loop of a client goes round once per failed
    attempt (a failed request, or a reply that does not deserialize),
    sleeping each time and leaving the registry as it is.  After only failed
    attempts it is still asking.  At the first reply that deserializes it
    adds the members of the reply, in order, and leaves the loop; the
    answers that would follow are not asked for. *)
Theorem registerLoop_retries_until_success (bytesData : bytes)
    (failures : list (result bytes)) (m : DiscoveryNATS) :
  Forall (fun r => attempt_fails UnmarshalMemberList r = true) failures ->
  (exists tr,
      registerLoop UnmarshalMemberList bytesData failures m = Retrying m tr
      /\ sleeps tr = List.length failures)
  /\ (forall rspData members rest,
        UnmarshalMemberList rspData = Ok members ->
        exists tr,
          registerLoop UnmarshalMemberList bytesData
            (failures ++ Ok rspData :: rest) m
          = Registered (set_memberList (ingest members (memberList m)) m) tr
          /\ sleeps tr = List.length failures).
Proof.
  intro Hall. split.
  - destruct (registerLoop_failures bytesData failures m Hall []) as (tr & Hsl & Hrun).
    rewrite app_nil_r in Hrun. exists tr. rewrite Hrun. cbn [registerLoop before].
    rewrite app_nil_r. split; [reflexivity | exact Hsl].
  - intros rspData members rest Hun.
    destruct (registerLoop_failures bytesData failures m Hall (Ok rspData :: rest))
      as (tr & Hsl & Hrun).
    rewrite Hrun. cbn [registerLoop]. rewrite Hun. cbn [before].
    eexists. split; [reflexivity |].
    rewrite !sleeps_app, sleeps_adds, Hsl. simpl. lia.
Qed.

End Registration.

Lemma ingest_other (members : list cherryProto.Member) nodeId :
  (forall p, In p members -> cherryProto.NodeId p <> nodeId) ->
  forall l, GetMember nodeId (ingest members l) = GetMember nodeId l.
Proof.
  unfold ingest. induction members as [| p rest IH]; intros Hne l; [reflexivity |].
  cbn [fold_left]. rewrite IH by (intros q Hq; apply Hne; right; exact Hq).
  apply AddMember_other. cbn [GetNodeId]. apply Hne. left. reflexivity.
Qed.

(** X13. Registering teaches a client neither the master nor itself: the
    list the master's register handler replies with, once added to a
    registry by the client's loop, changes nothing about the entry of the
    requester's node id nor about the entry of the master's; and whatever
    node id has no member in a reply keeps the entry it had. *)
Theorem reply_brings_neither_master_nor_requester
    (newNodeId masterNodeId : string) (registry l : list IMember) :
  GetMember newNodeId (ingest (rspMemberList newNodeId masterNodeId registry) l)
    = GetMember newNodeId l
  /\ GetMember masterNodeId
       (ingest (rspMemberList newNodeId masterNodeId registry) l)
     = GetMember masterNodeId l
  /\ (forall members nodeId,
        (forall p, In p members -> cherryProto.NodeId p <> nodeId) ->
        GetMember nodeId (ingest members l) = GetMember nodeId l).
Proof.
  split; [| split].
  - apply ingest_other. intros p Hp. apply rspMemberList_In in Hp. tauto.
  - apply ingest_other. intros p Hp. apply rspMemberList_In in Hp. tauto.
  - intros members nodeId H. apply ingest_other. exact H.
Qed.

(** *** The subjects *)

Lemma list_ascii_of_string_app (a b : string) :
  list_ascii_of_string (a ++ b)%string
    = list_ascii_of_string a ++ list_ascii_of_string b.
Proof. induction a as [| c a IH]; simpl; [| rewrite IH]; reflexivity. Qed.

Lemma string_app_inv_tail (a b tail : string) :
  (a ++ tail)%string = (b ++ tail)%string -> a = b.
Proof.
  intro H. apply (f_equal list_ascii_of_string) in H.
  rewrite !list_ascii_of_string_app in H. apply app_inv_tail in H.
  rewrite <- (string_of_list_ascii_of_string a), <- (string_of_list_ascii_of_string b).
  rewrite H. reflexivity.
Qed.

Lemma rev_tails (a b tailA tailB : string) :
  (a ++ tailA)%string = (b ++ tailB)%string ->
  rev (list_ascii_of_string tailA) ++ rev (list_ascii_of_string a)
  = rev (list_ascii_of_string tailB) ++ rev (list_ascii_of_string b).
Proof.
  intro H. apply (f_equal list_ascii_of_string) in H.
  rewrite !list_ascii_of_string_app in H.
  apply (f_equal (@rev Ascii.ascii)) in H. rewrite !rev_app_distr in H. exact H.
Qed.

(** X14. The subjects [init] derives keep clusters and kinds apart: two
    nodes have the same register subject (or unregister subject, or
    addMember subject) only if their masters have the same node id; and a
    register subject, an unregister subject and an addMember subject are
    never equal to each other, whatever the master ids. *)
Theorem subjects_keep_apart (m1 m2 : DiscoveryNATS) :
  (registerSubject (initSubjects m1) = registerSubject (initSubjects m2) ->
   GetNodeId (masterMember m1) = GetNodeId (masterMember m2))
  /\ (unregisterSubject (initSubjects m1) = unregisterSubject (initSubjects m2) ->
      GetNodeId (masterMember m1) = GetNodeId (masterMember m2))
  /\ (addSubject (initSubjects m1) = addSubject (initSubjects m2) ->
      GetNodeId (masterMember m1) = GetNodeId (masterMember m2))
  /\ registerSubject (initSubjects m1) <> unregisterSubject (initSubjects m2)
  /\ registerSubject (initSubjects m1) <> addSubject (initSubjects m2)
  /\ unregisterSubject (initSubjects m1) <> addSubject (initSubjects m2).
Proof.
  cbn [initSubjects registerSubject unregisterSubject addSubject].
  repeat split; intro H; cbn [String.append] in H;
    repeat (match type of H with String _ _ = String _ _ => injection H as H end);
    try (apply string_app_inv_tail in H; exact H);
    apply rev_tails in H; cbn [list_ascii_of_string rev app] in H;
    discriminate H.
Qed.

End DiscoveryInvariants.

(** ** Concrete runs for the further properties *)

Section FurtherRuns.
Import cherryAgent Examples cherryDiscovery cherryDiscoveryClient DiscoveryExamples.

Lemma sendMany_witness :
  chSend (sendMany (App := sampleApp) [lateMessage 1; lateMessage 2] nearlyFullAgent)
  = repeat helloMessage 63 ++ [lateMessage 1].
Proof.
  destruct (sendMany_fills_in_order (App := sampleApp)
              [lateMessage 1; lateMessage 2] nearlyFullAgent
              (sampleSession cherrySession.Working) eq_refl)
    as (_ & Hopen & _).
  apply Hopen. discriminate.
Defined.

Lemma SendRaw_then_writer_witness :
  exists a1,
    SendRaw (App := sampleApp) false [x05; x00; x00; x00] busyAgent = Returned a1 []
    /\ chWrite a1 = [heartbeatFrame; [x05; x00; x00; x00]]
    /\ write quietWorld (repeat (tickOffer, SrcWrite) 2) a1 =
         Blocked OnSelect (set_chWrite [] busyAgent)
           [ConnWrite heartbeatFrame; ConnWrite [x05; x00; x00; x00]].
Proof.
  apply (proj1 (SendRaw_then_writer (App := sampleApp) quietWorld tickOffer
                  [x05; x00; x00; x00] busyAgent)).
  - vm_compute. lia.
  - intros b' _. reflexivity.
Defined.

Lemma write_leaving_by_itself_witness :
  write (App := sampleApp) brokenWorld [(tickOffer, SrcWrite)] busyAgent
  = Blocked OnChDie
      (set_Session (sampleSession cherrySession.Closed) (set_chWrite [] busyAgent))
      [ConnWrite heartbeatFrame; LoggerWarn "write: broken pipe";
       SessionDebugf "close session. [sid = %s]"; TickerStop; OnCloseProcess].
Proof.
  apply (proj1 (write_leaving_by_itself_blocks (App := sampleApp) brokenWorld
                  tickOffer SrcWrite [] busyAgent (set_chWrite [] busyAgent)
                  [ConnWrite heartbeatFrame; LoggerWarn "write: broken pipe"]
                  (sampleSession cherrySession.Working)
                  eq_refl ltac:(discriminate) ltac:(discriminate) eq_refl)).
Defined.

Lemma processPackets_stamp_witness :
  processPackets (App := sampleApp) (fun i => (10 + Z.of_nat i) * time.Second) 0
    [cherryPacket.mkPacket cherryPacket.Data []; cherryPacket.mkPacket cherryPacket.Kick []]
    workingAgent
  = (workingAgent,
     [SessionDebugf "packet[%s] type not found.";
      SessionDebugf "packet[%s] type not found."])
  /\ lastAt (fst (processPackets (App := sampleApp)
                    (fun i => (10 + Z.of_nat i) * time.Second) 0
                    [cherryPacket.mkPacket cherryPacket.Data [];
                     cherryPacket.mkPacket cherryPacket.Heartbeat []]
                    workingAgent))
     = 11.
Proof.
  split.
  - apply (proj1 (processPackets_stamp (App := sampleApp)
                    (fun i => (10 + Z.of_nat i) * time.Second)
                    [cherryPacket.mkPacket cherryPacket.Data [];
                     cherryPacket.mkPacket cherryPacket.Kick []]
                    workingAgent)).
    repeat constructor.
  - apply (proj2 (processPackets_stamp (App := sampleApp)
                    (fun i => (10 + Z.of_nat i) * time.Second)
                    [cherryPacket.mkPacket cherryPacket.Data [];
                     cherryPacket.mkPacket cherryPacket.Heartbeat []]
                    workingAgent)
             [cherryPacket.mkPacket cherryPacket.Data []]
             (cherryPacket.mkPacket cherryPacket.Heartbeat [])
             (sampleSession cherrySession.Working)
             eq_refl eq_refl eq_refl).
Defined.

Lemma registry_ids_stay_unique_witness :
  NoDup (map GetNodeId
           (memberList
              (deliverAll (Ser := sampleSerializer) goodBus clientNode
                 [OnAddMember (list_byte_of_string "g3");
                  OnAddMember (list_byte_of_string "g3");
                  OnRegister (list_byte_of_string "g4");
                  OnUnregister (list_byte_of_string "g2")]))).
Proof.
  apply (registry_ids_stay_unique (Ser := sampleSerializer)).
  repeat (constructor; [simpl; intuition discriminate |]). constructor.
Defined.

Lemma registerLoop_witness :
  exists tr,
    registerLoop sampleUnmarshalList
      (list_byte_of_string "g1")
      ([Err "nats: timeout"; Ok []] ++ Ok (list_byte_of_string "g2") :: [Err "unused"])
      (node "g1" [])
    = Registered (node "g1" [ProtoMember (member "g2" "gate")]) tr
    /\ sleeps tr = 2%nat.
Proof.
  apply (proj2 (registerLoop_retries_until_success
                  sampleUnmarshalList (list_byte_of_string "g1")
                  [Err "nats: timeout"; Ok []] (node "g1" [])
                  ltac:(repeat constructor))
           (list_byte_of_string "g2") [member "g2" "gate"] [Err "unused"] eq_refl).
Defined.

End FurtherRuns.
